(** * Weave AI Assist: the two relays and the schema they write to

    A shallow embedding of
    - the database schema and its row-level-security policies
      (migration script, [src/unnamed/part_000], lines 1-218),
    - the upload relay [upload-file] ([src/unnamed/part_000], lines 218-338),
    - the completion relay [chat-completion] ([src/unnamed/part_001],
      lines 1-113),
    - the client statements that touch the [messages] table
      ([sendMessage] of the chat interface, [deleteProject] of the
      dashboard),
    - the components that call the relays ([sendMessage] and
      [loadMessages] of the chat interface, [onDrop] of the upload
      component), the creation of projects and chats by the dashboard,
      the policies on the storage bucket and the trigger on new users.

    The relays are straight-line [async] handlers wrapped in one
    [try]/[catch]; they are embedded in a state-and-exception monad over
    the managed store, with the answers of the outside world (the upstream
    API, the random generator, transport failures, the conversions made
    by the client libraries and the store) taken from an explicit
    environment. *)

From Stdlib Require Import Ascii.
From stdpp Require Import gmap strings list fin_maps pretty.

Local Open Scope string_scope.
Set Warnings "-register-all".

(** ** JavaScript values *)

Module JS.

(** A value obtained from [JSON.parse] ([req.json()], [response.json()]).
    Numbers are kept as integers: the relays only ever test a number for
    being zero and otherwise pass it on unchanged. *)
Inductive json : Type :=
| JNull
| JBool (b : bool)
| JNum (n : Z)
| JStr (s : string)
| JArr (items : list json)
| JObj (fields : list (string * json)).

(** A value of an untyped binding: [None] is [undefined]. *)
Definition value : Type := option json.

Definition undefined : value := None.
Definition null : value := Some JNull.

(** What the engine raises by itself, as opposed to [throw new Error(..)]. *)
Inductive engine_error : Type :=
| BodyNotReadable      (* req.json() / req.formData() / response.json() rejects *)
| NullishAccess        (* property read or destructuring of null / undefined *)
| NotIterable          (* spread of a value that has no iterator *)
| NotPrimitive         (* an object that cannot be converted to a string *)
| FetchFailed.         (* fetch() rejects *)

(** A thrown value. Both kinds are instances of [Error] and carry a
    [message]; for [Raised] the text is the engine's. *)
Inductive exn : Type :=
| Error (message : string)
| Raised (e : engine_error).

Inductive completion (A : Type) : Type :=
| Normal (a : A)
| Throw (e : exn).
Arguments Normal {A} a.
Arguments Throw {A} e.

(** [!v] is [negb (truthy v)]. *)
Definition truthy (v : value) : bool :=
  match v with
  | None => false
  | Some JNull => false
  | Some (JBool b) => b
  | Some (JNum n) => negb (n =? 0)%Z
  | Some (JStr s) => negb (String.eqb s "")
  | Some (JArr _) => true
  | Some (JObj _) => true
  end.

(** [x || d] on a nullable string. *)
Definition or_default (x : option string) (d : string) : string :=
  match x with
  | None => d
  | Some s => if String.eqb s "" then d else s
  end.

(** Truthiness of a nullable string ([Deno.env.get], a form field). *)
Definition truthy_string (x : option string) : bool :=
  match x with
  | None => false
  | Some s => negb (String.eqb s "")
  end.

Fixpoint own_property (k : string) (fields : list (string * json)) : value :=
  match fields with
  | [] => None
  | (k', v) :: rest => if String.eqb k k' then Some v else own_property k rest
  end.

(** [v.k] for the property names the relays read ([messages], [chatId],
    [projectId], [choices], [message], [content], [usage], [id]): none of
    them lives on a prototype, so only an object's own properties answer. *)
Definition get (v : value) (k : string) : completion value :=
  match v with
  | None => Throw (Raised NullishAccess)
  | Some JNull => Throw (Raised NullishAccess)
  | Some (JObj fields) => Normal (own_property k fields)
  | Some _ => Normal undefined
  end.

(** A string holds the UTF-8 encoding of its text. A byte [10xxxxxx]
    continues the character begun before it. *)
Definition continuation (c : ascii) : bool :=
  ((128 <=? N_of_ascii c) && (N_of_ascii c <? 192))%N.

(** The bytes of [s] that continue a character begun before [s], and the
    characters after them. *)
Fixpoint scan (s : string) : string * list string :=
  match s with
  | EmptyString => ("", [])
  | String c rest =>
      let '(more, chars) := scan rest in
      if continuation c then (String c more, chars)
      else ("", String c more :: chars)
  end.

(** The characters of a string, one per code point (bytes that continue
    nothing, which no text has, count as one). *)
Definition code_points (s : string) : list string :=
  let '(stray, chars) := scan s in
  if String.eqb stray "" then chars else stray :: chars.

(** The one-character strings a string iterates over. *)
Definition characters (s : string) : list json := JStr <$> code_points s.

(** [v[0]]. Of a string it is the first character (for a character
    outside the basic plane the engine gives its first half, which has no
    encoding of its own; the relays only read a property of it, and that
    is [undefined] for every string). *)
Definition get0 (v : value) : completion value :=
  match v with
  | None => Throw (Raised NullishAccess)
  | Some JNull => Throw (Raised NullishAccess)
  | Some (JArr items) => Normal (head items)
  | Some (JStr s) => Normal (head (characters s))
  | Some (JObj fields) => Normal (own_property "0" fields)
  | Some _ => Normal undefined
  end.

(** [...v] inside an array literal: arrays and strings are iterable. *)
Definition spread (v : value) : completion (list json) :=
  match v with
  | Some (JArr items) => Normal items
  | Some (JStr s) => Normal (characters s)
  | _ => Throw (Raised NotIterable)
  end.

(** [`${v}`], the string a template literal makes of a value. [number]
    gives the digits of a number. An array is its elements joined by
    commas, [null] counting as the empty string; an object is
    [[object Object]], unless it has a property [toString] of its own,
    which is no function: then there is nothing to convert it with. *)
Fixpoint to_string (number : Z -> string) (j : json) : completion string :=
  match j with
  | JNull => Normal "null"
  | JBool b => Normal (if b then "true" else "false")
  | JNum n => Normal (number n)
  | JStr s => Normal s
  | JArr items =>
      (fix join (l : list json) : completion string :=
         match l with
         | [] => Normal ""
         | x :: rest =>
             match (match x with JNull => Normal "" | _ => to_string number x end) with
             | Throw e => Throw e
             | Normal first =>
                 match rest with
                 | [] => Normal first
                 | _ :: _ =>
                     match join rest with
                     | Throw e => Throw e
                     | Normal others => Normal (first +:+ "," +:+ others)
                     end
                 end
             end
         end) items
  | JObj fields =>
      match own_property "toString" fields with
      | Some _ => Throw (Raised NotPrimitive)
      | None => Normal "[object Object]"
      end
  end.

(** The same for a binding that may be [undefined]. *)
Definition interpolate (number : Z -> string) (v : value) : completion string :=
  match v with
  | None => Normal "undefined"
  | Some j => to_string number j
  end.

(** [s.split('.')]: never empty. *)
Fixpoint split_dot (s : string) : list string :=
  match s with
  | EmptyString => [""]
  | String c rest =>
      if Ascii.eqb c "."%char then "" :: split_dot rest
      else match split_dot rest with
           | [] => [String c ""]
           | w :: ws => String c w :: ws
           end
  end.

(** [a.pop()] on the result of a [split]. *)
Definition pop (a : list string) : string := List.last a "".

End JS.
Export JS.

(** ** The schema: tables, constraints, row-level security *)

Module Schema.

(** Rows carry the columns a client or a relay supplies; columns filled by
    the store itself ([created_at], [updated_at], the generated [id] of a
    message or a file) are left out. Tables with a primary key that other
    tables reference are maps from that key. *)

Record profile_row : Type := {
  profile_user_id : string;
  email : string;
  full_name : option string }.

Record project_row : Type := {
  p_user_id : string;
  p_name : string;
  p_description : option string;
  p_system_prompt : option string }.

Record chat_row : Type := {
  c_project_id : string;
  c_title : string }.

Record message_row : Type := {
  m_chat_id : string;
  m_role : string;
  m_content : string }.

Record file_row : Type := {
  f_project_id : string;
  f_name : string;
  f_size : Z;
  f_type : string;
  f_storage_path : string }.

Record database : Type := {
  profiles : gmap string profile_row;
  projects : gmap string project_row;
  chats : gmap string chat_row;
  messages : list message_row;
  files : list file_row }.

Definition with_messages (d : database) (ms : list message_row) : database :=
  {| profiles := profiles d; projects := projects d; chats := chats d;
     messages := ms; files := files d |}.

Definition with_files (d : database) (fs : list file_row) : database :=
  {| profiles := profiles d; projects := projects d; chats := chats d;
     messages := messages d; files := fs |}.

(** *** Table constraints *)

(** [role TEXT NOT NULL CHECK (role IN ('user', 'assistant'))] *)
Definition role_check (role : string) : bool :=
  String.eqb role "user" || String.eqb role "assistant".

(** [chat_id UUID NOT NULL REFERENCES public.chats(id)] and the check. *)
Definition message_constraints (d : database) (r : message_row) : bool :=
  bool_decide (is_Some (chats d !! m_chat_id r)) && role_check (m_role r).

(** [size INTEGER NOT NULL]: a four-byte signed integer. *)
Definition fits_integer (n : Z) : bool :=
  ((-2147483648 <=? n) && (n <=? 2147483647))%Z.

(** [project_id UUID NOT NULL REFERENCES public.projects(id)]. *)
Definition file_constraints (d : database) (r : file_row) : bool :=
  bool_decide (is_Some (projects d !! f_project_id r)) && fits_integer (f_size r).

(** *** Row-level security *)

Inductive table : Type := Profiles | Projects | Chats | Messages | Files.
Inductive command : Type := SELECT | INSERT | UPDATE | DELETE.

#[global] Instance table_eq_dec : EqDecision table.
Proof. solve_decision. Defined.
#[global] Instance command_eq_dec : EqDecision command.
Proof. solve_decision. Defined.

Inductive row : Type :=
| ProfileRow (r : profile_row)
| ProjectRow (r : project_row)
| ChatRow (r : chat_row)
| MessageRow (r : message_row)
| FileRow (r : file_row).

Definition table_of (r : row) : table :=
  match r with
  | ProfileRow _ => Profiles
  | ProjectRow _ => Projects
  | ChatRow _ => Chats
  | MessageRow _ => Messages
  | FileRow _ => Files
  end.

(** [auth.uid()]: [None] for a request without an identity; a comparison
    with it is then not true. *)
Definition uid_is (uid : option string) (owner : string) : bool :=
  match uid with
  | Some u => String.eqb u owner
  | None => false
  end.

(** [EXISTS (SELECT 1 FROM projects WHERE projects.id = pid
             AND projects.user_id = auth.uid())] *)
Definition owns_project (uid : option string) (d : database) (pid : string) : bool :=
  match projects d !! pid with
  | Some p => uid_is uid (p_user_id p)
  | None => false
  end.

(** [EXISTS (SELECT 1 FROM chats JOIN projects ON projects.id = chats.project_id
             WHERE chats.id = cid AND projects.user_id = auth.uid())] *)
Definition owns_chat (uid : option string) (d : database) (cid : string) : bool :=
  match chats d !! cid with
  | Some c => owns_project uid d (c_project_id c)
  | None => false
  end.

Definition own_profile_row (uid : option string) (d : database) (r : row) : bool :=
  match r with ProfileRow p => uid_is uid (profile_user_id p) | _ => false end.

Definition own_project_row (uid : option string) (d : database) (r : row) : bool :=
  match r with ProjectRow p => uid_is uid (p_user_id p) | _ => false end.

Definition chat_of_own_project (uid : option string) (d : database) (r : row) : bool :=
  match r with ChatRow c => owns_project uid d (c_project_id c) | _ => false end.

Definition message_of_own_chat (uid : option string) (d : database) (r : row) : bool :=
  match r with MessageRow m => owns_chat uid d (m_chat_id m) | _ => false end.

Definition file_of_own_project (uid : option string) (d : database) (r : row) : bool :=
  match r with FileRow f => owns_project uid d (f_project_id f) | _ => false end.

(** A policy: its [USING] expression, or for INSERT its [WITH CHECK]
    expression, as a test of a row for the requester [auth.uid()]. *)
Record policy : Type := {
  policy_name : string;
  on_table : table;
  for_command : command;
  pol_using : option string -> database -> row -> bool }.

(** The [CREATE POLICY] statements on the five tables, in script order. *)
Definition policies : list policy := [
  {| policy_name := "Users can view own profile";
     on_table := Profiles; for_command := SELECT; pol_using := own_profile_row |};
  {| policy_name := "Users can create own profile";
     on_table := Profiles; for_command := INSERT; pol_using := own_profile_row |};
  {| policy_name := "Users can update own profile";
     on_table := Profiles; for_command := UPDATE; pol_using := own_profile_row |};
  {| policy_name := "Users can view own projects";
     on_table := Projects; for_command := SELECT; pol_using := own_project_row |};
  {| policy_name := "Users can create own projects";
     on_table := Projects; for_command := INSERT; pol_using := own_project_row |};
  {| policy_name := "Users can update own projects";
     on_table := Projects; for_command := UPDATE; pol_using := own_project_row |};
  {| policy_name := "Users can delete own projects";
     on_table := Projects; for_command := DELETE; pol_using := own_project_row |};
  {| policy_name := "Users can view chats from own projects";
     on_table := Chats; for_command := SELECT; pol_using := chat_of_own_project |};
  {| policy_name := "Users can create chats in own projects";
     on_table := Chats; for_command := INSERT; pol_using := chat_of_own_project |};
  {| policy_name := "Users can update chats from own projects";
     on_table := Chats; for_command := UPDATE; pol_using := chat_of_own_project |};
  {| policy_name := "Users can delete chats from own projects";
     on_table := Chats; for_command := DELETE; pol_using := chat_of_own_project |};
  {| policy_name := "Users can view messages from own chats";
     on_table := Messages; for_command := SELECT; pol_using := message_of_own_chat |};
  {| policy_name := "Users can create messages in own chats";
     on_table := Messages; for_command := INSERT; pol_using := message_of_own_chat |};
  {| policy_name := "Users can view files from own projects";
     on_table := Files; for_command := SELECT; pol_using := file_of_own_project |};
  {| policy_name := "Users can create files in own projects";
     on_table := Files; for_command := INSERT; pol_using := file_of_own_project |};
  {| policy_name := "Users can delete files from own projects";
     on_table := Files; for_command := DELETE; pol_using := file_of_own_project |} ].

Definition policies_for (t : table) (c : command) : list policy :=
  filter (fun p => on_table p = t /\ for_command p = c) policies.

(** Row-level security is enabled on all five tables: a command reaches a
    row only if some policy for that table and command accepts the row;
    with no policy for the command, no row is reached. *)
Definition permitted (uid : option string) (d : database) (c : command) (r : row) : bool :=
  existsb (fun p => pol_using p uid d r) (policies_for (table_of r) c).

End Schema.
Export Schema.

(** ** The world a relay runs in *)

Module World.

(** A JavaScript [File]: [file.name], [file.type] and the blob, whose byte
    length is [file.size]. *)
Record File : Type := {
  file_name : string;
  file_type : string;
  file_bytes : list Byte.byte }.

Definition file_size (f : File) : Z := Z.of_nat (length (file_bytes f)).

(** A [fetch] response that arrived: [response.status], what
    [response.text()] yields, and what [response.json()] yields ([None]
    when the body is not JSON and the promise rejects). *)
Record http_response : Type := {
  http_status : N;
  http_text : string;
  http_json : option json }.

(** [response.ok] *)
Definition ok (r : http_response) : bool :=
  ((200 <=? http_status r) && (http_status r <=? 299))%N.

(** The JSON body of the call to [/v1/chat/completions]; [temperature] is
    the decimal 0.7, kept as numerator and denominator. *)
Record chat_request : Type := {
  model : string;
  chat_messages : list json;
  temperature : Z * Z;
  max_tokens : Z }.

Inductive store_call : Type :=
| ProjectsSelect | MessagesInsert | StorageUpload | FilesInsert.

(** Everything a run reads from outside the store. [store_fails] stands
    for a failure of the call itself (transport, service), which the
    client library reports in [error] like a rejected statement;
    [None] from a [fetch] is a rejected promise. The service URL and
    service-role key are taken as configured.

    Two functions belong to the platform and not to the relays:
    [json_text] is the text [JSON.stringify] writes for a value that is
    no string (for a number, also the digits a template literal puts),
    and [object_key] is the key under which the storage service files an
    object uploaded with a path (the client library drops a leading and
    a trailing slash and merges repeated slashes before it sends the
    path). *)
Record environment : Type := {
  OPENAI_API_KEY : option string;
  randomUUID : string;
  store_fails : store_call -> bool;
  chat_completions : string -> chat_request -> option http_response;
  openai_files : string -> File -> option http_response;
  json_text : json -> string;
  object_key : string -> string }.

(** The calls a relay makes, in order, with the outcome of each write. *)
Inductive event : Type :=
| CallProjectsSelect (id : value)
| CallChatCompletions (key : string) (body : chat_request)
| CallMessagesInsert (chat_id : value) (role : string) (content : value) (accepted : bool)
| CallStorageUpload (path : string) (file : File) (accepted : bool)
| CallFilesInsert (r : file_row) (accepted : bool)
| CallOpenAIFiles (key : string) (file : File).

Record world : Type := {
  db : database;
  bucket : gmap string File }.    (* the bucket [project-files], by object key *)

Definition set_db (d : database) (w : world) : world :=
  {| db := d; bucket := bucket w |}.

Definition set_bucket (b : gmap string File) (w : world) : world :=
  {| db := db w; bucket := b |}.

(** *** State, exceptions and the record of calls *)

(** What a computation leaves behind: how it completed, the store
    afterwards, and the calls it made, oldest first. *)
Record run (A : Type) : Type := {
  result : completion A;
  final : world;
  calls : list event }.
Arguments result {A} r.
Arguments final {A} r.
Arguments calls {A} r.

Definition M (A : Type) : Type := world -> run A.

Definition ret {A} (a : A) : M A :=
  fun w => {| result := Normal a; final := w; calls := [] |}.

Definition throw {A} (e : exn) : M A :=
  fun w => {| result := Throw e; final := w; calls := [] |}.

Definition bind {A B} (m : M A) (k : A -> M B) : M B :=
  fun w =>
    let r := m w in
    match result r with
    | Normal a =>
        let r' := k a (final r) in
        {| result := result r'; final := final r'; calls := calls r ++ calls r' |}
    | Throw e => {| result := Throw e; final := final r; calls := calls r |}
    end.

(** [try { m } catch (error) { h error }] *)
Definition try_catch {A} (m : M A) (h : exn -> M A) : M A :=
  fun w =>
    let r := m w in
    match result r with
    | Normal a => r
    | Throw e =>
        let r' := h e (final r) in
        {| result := result r'; final := final r'; calls := calls r ++ calls r' |}
    end.

Definition lift {A} (c : completion A) : M A :=
  fun w => {| result := c; final := w; calls := [] |}.

(** A promise that rejects when there is nothing to resolve with. *)
Definition await {A} (x : option A) (e : engine_error) : M A :=
  match x with
  | Some a => ret a
  | None => throw (Raised e)
  end.

Module Import Notations.
Notation "'let!' x ':=' m 'in' k" :=
  (bind m (fun x => k))
  (at level 10, x name, m at level 100, k at level 200).
End Notations.

(** *** The store, reached with the service-role key

    The service role bypasses row-level security; table constraints still
    apply. Each call resolves to [{ data, error }], never rejects. *)

(** The text [.eq('id', id)] puts into the filter: [`eq.${id}`]. *)
Definition filter_text (env : environment) (id : value) : completion string :=
  interpolate (fun n => json_text env (JNum n)) id.

(** What the select of a project resolves to: [Some system_prompt] is
    [data], [None] is an [error] (no row with that id, a failed call). *)
Definition project_data (env : environment) (d : database) (text : string)
    : option (option string) :=
  if store_fails env ProjectsSelect then None
  else p_system_prompt <$> projects d !! text.

(** [from('projects').select('system_prompt').eq('id', id).single()].
    The filter is built first, and building it can throw; then no call is
    made. *)
Definition projects_select (env : environment) (id : value) : M (option (option string)) :=
  fun w =>
    match filter_text env id with
    | Throw e => {| result := Throw e; final := w; calls := [] |}
    | Normal text =>
        {| result := Normal (project_data env (db w) text); final := w;
           calls := [CallProjectsSelect id] |}
    end.

(** What a UUID or TEXT column takes for a value of the posted row: a
    string as it is, any other value by its JSON text; [None] is NULL,
    for [null] and for a property that was left out. *)
Definition column_text (env : environment) (v : value) : option string :=
  match v with
  | None => None
  | Some JNull => None
  | Some (JStr s) => Some s
  | Some j => Some (json_text env j)
  end.

(** The row an insert into [messages] stores, if the store takes it.
    [chat_id] is a UUID NOT NULL column and [content] a TEXT NOT NULL
    column. *)
Definition message_to_store (env : environment) (d : database) (chat_id : value)
    (role : string) (content : value) : option message_row :=
  match column_text env chat_id, column_text env content with
  | Some c, Some t =>
      let r := {| m_chat_id := c; m_role := role; m_content := t |} in
      if negb (store_fails env MessagesInsert) && message_constraints d r
      then Some r else None
  | _, _ => None
  end.

(** [from('messages').insert({ chat_id, role, content })]: resolves to
    [true] when there is no [error]. *)
Definition messages_insert (env : environment) (chat_id : value) (role : string)
    (content : value) : M bool :=
  fun w =>
    match message_to_store env (db w) chat_id role content with
    | Some r =>
        {| result := Normal true;
           final := set_db (with_messages (db w) (messages (db w) ++ [r])) w;
           calls := [CallMessagesInsert chat_id role content true] |}
    | None =>
        {| result := Normal false; final := w;
           calls := [CallMessagesInsert chat_id role content false] |}
    end.

(** [storage.from('project-files').upload(path, file)]: the object is
    filed under [object_key env path]; without the upsert option an
    existing object is not overwritten. *)
Definition storage_upload (env : environment) (path : string) (file : File) : M bool :=
  fun w =>
    if negb (store_fails env StorageUpload)
       && bool_decide (bucket w !! object_key env path = None)
    then {| result := Normal true;
            final := set_bucket (<[object_key env path := file]> (bucket w)) w;
            calls := [CallStorageUpload path file true] |}
    else {| result := Normal false; final := w;
            calls := [CallStorageUpload path file false] |}.

(** [from('files').insert(r).select().single()]: [Some] is [data]. *)
Definition files_insert (env : environment) (r : file_row) : M (option file_row) :=
  fun w =>
    if negb (store_fails env FilesInsert) && file_constraints (db w) r
    then {| result := Normal (Some r);
            final := set_db (with_files (db w) (files (db w) ++ [r])) w;
            calls := [CallFilesInsert r true] |}
    else {| result := Normal None; final := w; calls := [CallFilesInsert r false] |}.

(** *** The third-party API *)

Definition fetch_chat_completions (env : environment) (key : string) (body : chat_request)
    : M http_response :=
  fun w =>
    {| result :=
         match chat_completions env key body with
         | Some r => Normal r
         | None => Throw (Raised FetchFailed)
         end;
       final := w;
       calls := [CallChatCompletions key body] |}.

Definition fetch_openai_files (env : environment) (key : string) (file : File)
    : M http_response :=
  fun w =>
    {| result :=
         match openai_files env key file with
         | Some r => Normal r
         | None => Throw (Raised FetchFailed)
         end;
       final := w;
       calls := [CallOpenAIFiles key file] |}.

(** *** Responses *)

Inductive body : Type :=
| NoBody
| ErrorBody (error : exn)                                  (* { error: error.message } *)
| CompletionBody (message : value) (usage : value)         (* { message, usage } *)
| UploadBody (file : file_row) (openaiFileId : value) (message : string).

Record response : Type := {
  status : N;
  headers : list (string * string);
  response_body : body }.

Definition corsHeaders : list (string * string) := [
  ("Access-Control-Allow-Origin", "*");
  ("Access-Control-Allow-Headers", "authorization, x-client-info, apikey, content-type") ].

Definition json_headers : list (string * string) :=
  corsHeaders ++ [("Content-Type", "application/json")].

(** [new Response(null, { headers: corsHeaders })] *)
Definition preflight : response :=
  {| status := 200; headers := corsHeaders; response_body := NoBody |}.

(** [new Response(JSON.stringify({ error: .. }), { status: 500, .. })] *)
Definition error_envelope (error : exn) : response :=
  {| status := 500; headers := json_headers; response_body := ErrorBody error |}.

End World.
Export World.
Import World.Notations.

(** ** The completion relay *)

Module ChatCompletion.

Record request : Type := {
  method : string;
  authorization : option string;   (* the caller's credential; never read *)
  json_body : option json }.       (* [await req.json()]; [None]: it rejects *)

Definition default_system_prompt : string := "You are a helpful AI assistant.".

Definition system_entry (system_prompt : option string) : json :=
  JObj [("role", JStr "system");
        ("content", JStr (or_default system_prompt default_system_prompt))].

(** The body of the [try] block. *)
Definition handle (env : environment) (req : request) : M response :=
  let! parsed := await (json_body req) BodyNotReadable in
  let! messages := lift (get (Some parsed) "messages") in
  let! chatId := lift (get (Some parsed) "chatId") in
  let! projectId := lift (get (Some parsed) "projectId") in
  if negb (truthy messages) || negb (truthy chatId) || negb (truthy projectId)
  then throw (Error "Missing required parameters: messages, chatId, and projectId")
  else
    let! project := projects_select env projectId in
    match project with
    | None => throw (Error "Failed to fetch project details")
    | Some system_prompt =>
        let! history := lift (spread messages) in
        let openaiMessages := system_entry system_prompt :: history in
        match OPENAI_API_KEY env with
        | None => throw (Error "OpenAI API key not configured")
        | Some openaiApiKey =>
            if String.eqb openaiApiKey ""
            then throw (Error "OpenAI API key not configured")
            else
              let! response :=
                fetch_chat_completions env openaiApiKey
                  {| model := "gpt-4o-mini";
                     chat_messages := openaiMessages;
                     temperature := (7, 10)%Z;
                     max_tokens := 2000 |} in
              if negb (ok response)
              then throw (Error ("OpenAI API error: " +:+ pretty (http_status response)
                                   +:+ " " +:+ http_text response))
              else
                let! data := await (http_json response) BodyNotReadable in
                let! choices := lift (get (Some data) "choices") in
                let! choice := lift (get0 choices) in
                let! message := lift (get choice "message") in
                let! assistantMessage := lift (get message "content") in
                let! saved := messages_insert env chatId "assistant" assistantMessage in
                if negb saved
                then throw (Error "Failed to save assistant message")
                else
                  let! usage := lift (get (Some data) "usage") in
                  ret {| status := 200; headers := json_headers;
                         response_body := CompletionBody assistantMessage usage |}
        end
    end.

Definition chat_completion (env : environment) (req : request) : M response :=
  if String.eqb (method req) "OPTIONS" then ret preflight
  else try_catch (handle env req) (fun error => ret (error_envelope error)).

End ChatCompletion.

(** ** The upload relay *)

Module UploadFile.

(** [await req.formData()] with the three fields as the handler casts
    them: [formData.get('file') as File], [.. as string]; a field that
    was not sent is [null]. *)
Record form_data : Type := {
  form_file : option File;
  form_projectId : option string;
  form_userId : option string }.

Record request : Type := {
  method : string;
  authorization : option string;   (* the caller's credential; never read *)
  formData : option form_data }.   (* [None]: the body is no form and it rejects *)

(** [20 * 1024 * 1024] *)
Definition mirror_limit : Z := 20 * 1024 * 1024.

Definition fileExt (file : File) : string := pop (split_dot (file_name file)).

Definition fileName (env : environment) (file : File) : string :=
  randomUUID env +:+ "." +:+ fileExt file.

Definition filePath (env : environment) (userId : string) (file : File) : string :=
  userId +:+ "/" +:+ fileName env file.

(** The inner [try] block: what [openaiFileId] is assigned, if anything. *)
Definition mirror (env : environment) (openaiApiKey : string) (file : File) : M value :=
  let! openaiResponse := fetch_openai_files env openaiApiKey file in
  if ok openaiResponse
  then
    let! openaiData := await (http_json openaiResponse) BodyNotReadable in
    lift (get (Some openaiData) "id")
  else ret null.

(** The body of the outer [try] block. *)
Definition handle (env : environment) (req : request) : M response :=
  let! form := await (formData req) BodyNotReadable in
  match form_file form with
  | None => throw (Error "Missing required parameters: file, projectId, and userId")
  | Some file =>
      if negb (truthy_string (form_projectId form)) || negb (truthy_string (form_userId form))
      then throw (Error "Missing required parameters: file, projectId, and userId")
      else
        (* both are strings from here on *)
        let projectId := default "" (form_projectId form) in
        let userId := default "" (form_userId form) in
        let path := filePath env userId file in
        let! uploaded := storage_upload env path file in
        if negb uploaded
        then throw (Error "Failed to upload file to storage")
        else
          let! fileData :=
            files_insert env
              {| f_project_id := projectId;
                 f_name := file_name file;
                 f_size := file_size file;
                 f_type := file_type file;
                 f_storage_path := path |} in
          match fileData with
          | None => throw (Error "Failed to save file metadata")
          | Some fileData =>
              let! openaiFileId :=
                match OPENAI_API_KEY env with
                | Some openaiApiKey =>
                    if negb (String.eqb openaiApiKey "") && (file_size file <=? mirror_limit)%Z
                    then try_catch (mirror env openaiApiKey file) (fun _ => ret null)
                    else ret null
                | None => ret null
                end in
              ret {| status := 200; headers := json_headers;
                     response_body :=
                       UploadBody fileData openaiFileId "File uploaded successfully" |}
          end
  end.

Definition upload_file (env : environment) (req : request) : M response :=
  if String.eqb (method req) "OPTIONS" then ret preflight
  else try_catch (handle env req) (fun error => ret (error_envelope error)).

End UploadFile.

(** ** Statements of a signed-in client, under row-level security *)

Module Client.

(** [INSERT INTO messages]: the row must pass the INSERT policy and the
    table constraints; [None] is a rejected statement. *)
Definition insert_message (uid : option string) (r : message_row) (d : database)
    : option database :=
  if permitted uid d INSERT (MessageRow r) && message_constraints d r
  then Some (with_messages d (messages d ++ [r]))
  else None.

(** [sendMessage] of the chat interface saves the user's turn with
    [role: 'user'] through the signed-in client. *)
Definition sendMessage_insert (uid : option string) (chat_id userMessage : string)
    (d : database) : option database :=
  insert_message uid {| m_chat_id := chat_id; m_role := "user"; m_content := userMessage |} d.

(** [UPDATE messages SET .. WHERE ..]: only rows the UPDATE policies
    accept are changed; a changed row must pass the constraints, or the
    statement is rejected ([None]). *)
Definition update_row (uid : option string) (where_ : message_row -> bool)
    (set : message_row -> message_row) (d : database) (r : message_row)
    : option message_row :=
  if where_ r && permitted uid d UPDATE (MessageRow r)
  then (if message_constraints d (set r) then Some (set r) else None)
  else Some r.

Definition update_messages (uid : option string) (where_ : message_row -> bool)
    (set : message_row -> message_row) (d : database) : option database :=
  with_messages d <$> mapM (update_row uid where_ set d) (messages d).

(** [DELETE FROM messages WHERE ..]: only rows the DELETE policies accept
    are removed. *)
Definition delete_messages (uid : option string) (where_ : message_row -> bool)
    (d : database) : database :=
  with_messages d
    (List.filter (fun r => negb (where_ r && permitted uid d DELETE (MessageRow r)))
       (messages d)).

(** [SELECT .. FROM messages WHERE ..] *)
Definition select_messages (uid : option string) (where_ : message_row -> bool)
    (d : database) : list message_row :=
  List.filter (fun r => where_ r && permitted uid d SELECT (MessageRow r)) (messages d).

(** The chat [cid] belongs to project [pid]. *)
Definition chat_in_project (d : database) (pid cid : string) : bool :=
  match chats d !! cid with
  | Some c => String.eqb (c_project_id c) pid
  | None => false
  end.

(** [deleteProject]: [from('projects').delete().eq('id', pid)]. When the
    DELETE policy on [projects] accepts the row, it goes, and with it, by
    [ON DELETE CASCADE], the chats of the project, the messages of those
    chats and the file rows of the project. The cascade is a referential
    action: it is not subject to the policies of the tables it reaches. *)
Definition deleteProject (uid : option string) (pid : string) (d : database) : database :=
  match projects d !! pid with
  | Some p =>
      if permitted uid d DELETE (ProjectRow p)
      then
        {| profiles := profiles d;
           projects := delete pid (projects d);
           chats := filter (fun kc => c_project_id kc.2 <> pid) (chats d);
           messages :=
             List.filter (fun m => negb (chat_in_project d pid (m_chat_id m))) (messages d);
           files :=
             List.filter (fun f => negb (String.eqb (f_project_id f) pid)) (files d) |}
      else d
  | None => d
  end.

(** [DELETE FROM chats WHERE id = cid], with the cascade to its messages. *)
Definition delete_chat (uid : option string) (cid : string) (d : database) : database :=
  match chats d !! cid with
  | Some c =>
      if permitted uid d DELETE (ChatRow c)
      then
        {| profiles := profiles d;
           projects := projects d;
           chats := delete cid (chats d);
           messages :=
             List.filter (fun m => negb (String.eqb (m_chat_id m) cid)) (messages d);
           files := files d |}
      else d
  | None => d
  end.

End Client.

(** ** Vocabulary of the properties *)

(** The bodies of the calls to the completion API, in order. *)
Definition sent_upstream (evs : list event) : list chat_request :=
  omap (fun e => match e with CallChatCompletions _ b => Some b | _ => None end) evs.

(** The outcomes of the inserts into [messages], in order. *)
Definition message_inserts (evs : list event) : list bool :=
  omap (fun e => match e with CallMessagesInsert _ _ _ a => Some a | _ => None end) evs.

(** The files sent to the mirror API, in order. *)
Definition mirror_calls (evs : list event) : list File :=
  omap (fun e => match e with CallOpenAIFiles _ f => Some f | _ => None end) evs.



(** Every stored message has one of the two roles. *)
Definition roles_ok (d : database) : Prop :=
  Forall (fun m => m_role m = "user" \/ m_role m = "assistant") (messages d).

(** *** Ownership-blind comparison of stores *)




(** [m] behaves alike on stores that [R] relates. *)
Definition respects {A} (R : world -> world -> Prop) (m : M A) : Prop :=
  forall w1 w2, R w1 w2 ->
    result (m w1) = result (m w2) /\
    calls (m w1) = calls (m w2) /\
    R (final (m w1)) (final (m w2)).

(** *** Missing parameters *)

(** What the completion relay finds under a name in the body it read;
    [undefined] when there is no body to read a property from. *)
Definition supplied (req : ChatCompletion.request) (k : string) : value :=
  match ChatCompletion.json_body req with
  | Some (JObj fields) => own_property k fields
  | _ => undefined
  end.

(** One of [messages], [chatId], [projectId] is absent (or falsy). *)
Definition completion_field_missing (req : ChatCompletion.request) : Prop :=
  truthy (supplied req "messages") = false \/
  truthy (supplied req "chatId") = false \/
  truthy (supplied req "projectId") = false.

(** One of [file], [projectId], [userId] is absent (or an empty string). *)
Definition upload_field_missing (req : UploadFile.request) : Prop :=
  match UploadFile.formData req with
  | None => True
  | Some form =>
      UploadFile.form_file form = None \/
      truthy_string (UploadFile.form_projectId form) = false \/
      truthy_string (UploadFile.form_userId form) = false
  end.

Definition missing_completion_parameters : exn :=
  Error "Missing required parameters: messages, chatId, and projectId".

Definition missing_upload_parameters : exn :=
  Error "Missing required parameters: file, projectId, and userId".

(** *** Reasoning about a run *)

(** [Q] holds of how [m] completes from [w], of the store it leaves and of
    the calls it made. *)
Definition wp {A} (m : M A) (w : world)
    (Q : completion A -> world -> list event -> Prop) : Prop :=
  Q (result (m w)) (final (m w)) (calls (m w)).


(** *** Mirroring *)

(** The mirror attempt did not yield a file identifier: the call was
    rejected, answered with a non-2xx status, or answered with a body from
    which no [id] can be read. *)
Definition mirror_failed (answer : option http_response) : Prop :=
  match answer with
  | None => True
  | Some r => ok r = false \/ http_json r = None \/ http_json r = Some JNull
  end.

(** *** Everything that writes to the store *)

(** One statement of a signed-in client on [messages], [chats] or
    [projects], or one run of a relay. *)
Inductive transition : database -> database -> Prop :=
| by_insert uid r d d' :
    Client.insert_message uid r d = Some d' -> transition d d'
| by_sendMessage uid chat_id userMessage d d' :
    Client.sendMessage_insert uid chat_id userMessage d = Some d' -> transition d d'
| by_update uid where_ set d d' :
    Client.update_messages uid where_ set d = Some d' -> transition d d'
| by_delete uid where_ d :
    transition d (Client.delete_messages uid where_ d)
| by_deleteProject uid pid d :
    transition d (Client.deleteProject uid pid d)
| by_delete_chat uid cid d :
    transition d (Client.delete_chat uid cid d)
| by_chat_completion env req w :
    transition (db w) (db (final (ChatCompletion.chat_completion env req w)))
| by_upload_file env req w :
    transition (db w) (db (final (UploadFile.upload_file env req w))).

(** The transition is the deletion of a project or of a chat, with its
    cascade. *)
Definition is_cascade (d d' : database) : Prop :=
  (exists uid pid, d' = Client.deleteProject uid pid d) \/
  (exists uid cid, d' = Client.delete_chat uid cid d).

(** The stores that arise from one with an empty [messages] table. *)
Inductive reachable : database -> Prop :=
| reachable_start d : messages d = [] -> reachable d
| reachable_step d d' : reachable d -> transition d d' -> reachable d'.

(** *** Which identifiers a call is made with *)



(** ** Concrete stores, requests and environments *)

Module Examples.

(** A store with one project [p1] of [alice], holding the given system
    prompt, one chat [c1] in it, and nothing else. *)
Definition store (system_prompt : option string) : world :=
  {| db :=
       {| profiles := ∅;
          projects :=
            {[ "p1" := {| p_user_id := "alice"; p_name := "Notes";
                          p_description := None;
                          p_system_prompt := system_prompt |} ]};
          chats := {[ "c1" := {| c_project_id := "p1"; c_title := "New Chat" |} ]};
          messages := [];
          files := [] |};
     bucket := ∅ |}.

Definition hi : json := JObj [("role", JStr "user"); ("content", JStr "hi")].

Definition completion_request (method : string) (body : option json)
    : ChatCompletion.request :=
  {| ChatCompletion.method := method;
     ChatCompletion.authorization := None;
     ChatCompletion.json_body := body |}.

(** [{ messages: [{role:"user",content:"hi"}], chatId: "c1", projectId: "p1" }] *)
Definition say_hi : ChatCompletion.request :=
  completion_request "POST"
    (Some (JObj [("messages", JArr [hi]); ("chatId", JStr "c1"); ("projectId", JStr "p1")])).

(** The completion API's answer carrying [content]. *)
Definition answer (content : json) : json :=
  JObj [("choices",
         JArr [JObj [("message", JObj [("role", JStr "assistant"); ("content", content)])]]);
        ("usage", JObj [("total_tokens", JNum 12)])].

(** JSON text, for values whose strings need no escape. *)
Definition quoted (s : string) : string :=
  String "034"%char s +:+ String "034"%char "".

Fixpoint stringify (j : json) : string :=
  match j with
  | JNull => "null"
  | JBool b => if b then "true" else "false"
  | JNum n => pretty n
  | JStr s => quoted s
  | JArr items =>
      "[" +:+ (fix elements (l : list json) : string :=
                 match l with
                 | [] => ""
                 | x :: rest =>
                     match rest with
                     | [] => stringify x
                     | _ :: _ => stringify x +:+ "," +:+ elements rest
                     end
                 end) items +:+ "]"
  | JObj fields =>
      "{" +:+ (fix members (l : list (string * json)) : string :=
                 match l with
                 | [] => ""
                 | (k, v) :: rest =>
                     match rest with
                     | [] => quoted k +:+ ":" +:+ stringify v
                     | _ :: _ => quoted k +:+ ":" +:+ stringify v +:+ "," +:+ members rest
                     end
                 end) fields +:+ "}"
  end.

(** The cleaning of a path by the storage client, for paths without
    characters that are special in a URL:
    [path.replace(/^\/|\/$/g, '').replace(/\/+/g, '/')], and no slash
    in front. *)
Definition drop_first_slash (s : string) : string :=
  match s with
  | String c rest => if Ascii.eqb c "/"%char then rest else s
  | EmptyString => ""
  end.

Fixpoint drop_last_slash (s : string) : string :=
  match s with
  | EmptyString => ""
  | String c rest =>
      match rest with
      | EmptyString => if Ascii.eqb c "/"%char then "" else s
      | String _ _ => String c (drop_last_slash rest)
      end
  end.

Fixpoint merge_slashes (s : string) : string :=
  match s with
  | EmptyString => ""
  | String c rest =>
      match rest with
      | String c' _ =>
          if Ascii.eqb c "/"%char && Ascii.eqb c' "/"%char then merge_slashes rest
          else String c (merge_slashes rest)
      | EmptyString => String c ""
      end
  end.

Fixpoint drop_leading_slashes (s : string) : string :=
  match s with
  | String c rest => if Ascii.eqb c "/"%char then drop_leading_slashes rest else s
  | EmptyString => ""
  end.

Definition clean_path (path : string) : string :=
  drop_leading_slashes (merge_slashes (drop_last_slash (drop_first_slash path))).

(** An environment in which the completion API answers every call with
    [upstream], the mirror API with [mirror], and the store calls listed
    in [failing] fail. *)
Definition environment_with (key : option string) (upstream mirror : option http_response)
    (failing : store_call -> bool) : environment :=
  {| OPENAI_API_KEY := key;
     randomUUID := "3f0c2a1e-7b4d-4c8e-9a51-0d6e2b9f4c77";
     store_fails := failing;
     chat_completions := fun _ _ => upstream;
     openai_files := fun _ _ => mirror;
     json_text := stringify;
     object_key := clean_path |}.

Definition no_failure (c : store_call) : bool := false.

Definition insert_failure (c : store_call) : bool :=
  match c with MessagesInsert | FilesInsert => true | _ => false end.

Definition says_hello : http_response :=
  {| http_status := 200; http_text := ""; http_json := Some (answer (JStr "hello")) |}.

Definition unavailable : http_response :=
  {| http_status := 503; http_text := "overloaded"; http_json := None |}.

Definition mirrored : http_response :=
  {| http_status := 200; http_text := ""; http_json := Some (JObj [("id", JStr "file-1")]) |}.

Definition healthy : environment :=
  environment_with (Some "sk-test") (Some says_hello) (Some mirrored) no_failure.

Definition overloaded : environment :=
  environment_with (Some "sk-test") (Some unavailable) (Some mirrored) no_failure.

Definition refusing_inserts : environment :=
  environment_with (Some "sk-test") (Some says_hello) (Some mirrored) insert_failure.

Definition without_key : environment :=
  environment_with None (Some says_hello) (Some mirrored) no_failure.

Definition mirror_down : environment :=
  environment_with (Some "sk-test") (Some says_hello) None no_failure.

(** What the relay sends upstream for [say_hi] when the system entry
    holds [prompt]. *)
Definition call_with_prompt (prompt : string) : chat_request :=
  {| model := "gpt-4o-mini";
     chat_messages := [JObj [("role", JStr "system"); ("content", JStr prompt)]; hi];
     temperature := (7, 10)%Z;
     max_tokens := 2000 |}.

(** A text file of 5 KB. *)
Definition notes : File :=
  {| file_name := "notes.txt"; file_type := "text/plain";
     file_bytes := repeat Byte.x61 (Z.to_nat 5120) |}.

Definition upload_request (method : string) (form : option UploadFile.form_data)
    : UploadFile.request :=
  {| UploadFile.method := method;
     UploadFile.authorization := None;
     UploadFile.formData := form |}.

Definition upload_notes (userId : string) : UploadFile.request :=
  upload_request "POST"
    (Some {| UploadFile.form_file := Some notes;
             UploadFile.form_projectId := Some "p1";
             UploadFile.form_userId := Some userId |}).





(** The File row the relay inserts for [upload_notes "alice"]. *)
Definition notes_row : file_row :=
  {| f_project_id := "p1"; f_name := "notes.txt"; f_size := 5120;
     f_type := "text/plain";
     f_storage_path := "alice/3f0c2a1e-7b4d-4c8e-9a51-0d6e2b9f4c77.txt" |}.

(** A store in which chat [c1] already holds one turn of each role. *)
Definition store_with_turns : database :=
  with_messages (db (store None))
    [ {| m_chat_id := "c1"; m_role := "user"; m_content := "hi" |};
      {| m_chat_id := "c1"; m_role := "assistant"; m_content := "hello" |} ].

End Examples.


(** ** Further vocabulary *)

Fixpoint has_dot (s : string) : bool :=
  match s with
  | EmptyString => false
  | String c rest => Ascii.eqb c "."%char || has_dot rest
  end.

(** [a.join('.')] *)
Fixpoint join_dot (a : list string) : string :=
  match a with
  | [] => ""
  | x :: rest =>
      match rest with
      | [] => x
      | _ :: _ => x +:+ "." +:+ join_dot rest
      end
  end.

(** The projects and the chats of two stores are the same. *)
Definition same_parents (w1 w2 : world) : Prop :=
  projects (db w1) = projects (db w2) /\ chats (db w1) = chats (db w2).

(** What [data.choices[0].message.content] evaluates to. *)
Definition reply_content (data : json) : completion value :=
  match get (Some data) "choices" with
  | Throw e => Throw e
  | Normal choices =>
      match get0 choices with
      | Throw e => Throw e
      | Normal choice =>
          match get choice "message" with
          | Throw e => Throw e
          | Normal message => get message "content"
          end
      end
  end.

(** ** More of the schema *)

(** The user a row belongs to, found as the policies find it: directly
    for a profile or a project, through the project for a chat or a
    file, through the chat and its project for a message. *)
Definition owner_of (d : database) (r : row) : option string :=
  match r with
  | ProfileRow p => Some (profile_user_id p)
  | ProjectRow p => Some (p_user_id p)
  | ChatRow c => p_user_id <$> projects d !! c_project_id c
  | FileRow f => p_user_id <$> projects d !! f_project_id f
  | MessageRow m =>
      match chats d !! m_chat_id m with
      | Some c => p_user_id <$> projects d !! c_project_id c
      | None => None
      end
  end.

(** Every reference of a row to its parent finds a row. *)
Definition references_ok (d : database) : Prop :=
  (forall cid c, chats d !! cid = Some c -> is_Some (projects d !! c_project_id c)) /\
  Forall (fun m => is_Some (chats d !! m_chat_id m)) (messages d) /\
  Forall (fun f => is_Some (projects d !! f_project_id f)) (files d).

Module Dashboard.

(** [INSERT INTO projects]: [id] is the key the store generates for the
    row; a statement is rejected ([None]) when the INSERT policy does not
    accept the row or the key is taken. *)
Definition insert_project (uid : option string) (id : string) (r : project_row)
    (d : database) : option database :=
  if permitted uid d INSERT (ProjectRow r) && bool_decide (projects d !! id = None)
  then Some {| profiles := profiles d; projects := <[id := r]> (projects d);
               chats := chats d; messages := messages d; files := files d |}
  else None.

(** [createProject]: the signed-in user inserts a project with
    [user_id: user!.id]. *)
Definition createProject (user : string) (id name description systemPrompt : string)
    (d : database) : option database :=
  insert_project (Some user) id
    {| p_user_id := user; p_name := name; p_description := Some description;
       p_system_prompt := Some systemPrompt |} d.

(** [INSERT INTO chats], with the reference to the project checked. *)
Definition insert_chat (uid : option string) (id : string) (r : chat_row)
    (d : database) : option database :=
  if permitted uid d INSERT (ChatRow r)
     && bool_decide (chats d !! id = None)
     && bool_decide (is_Some (projects d !! c_project_id r))
  then Some {| profiles := profiles d; projects := projects d;
               chats := <[id := r]> (chats d); messages := messages d;
               files := files d |}
  else None.

(** [createNewChat]: nothing without a selected project; otherwise the
    insert of [{ project_id: selectedProject.id, title: 'New Chat' }]. *)
Definition createNewChat (uid : option string) (selectedProject : option string)
    (id : string) (d : database) : option database :=
  match selectedProject with
  | None => Some d
  | Some project_id =>
      insert_chat uid id {| c_project_id := project_id; c_title := "New Chat" |} d
  end.

End Dashboard.

(** *** The policies on the objects of the bucket *)

Module Storage.








End Storage.

(** *** The trigger on new users *)

Module Trigger.

(** The columns of the new row of [auth.users] the function reads;
    [raw_full_name] is [NEW.raw_user_meta_data->>'full_name'], NULL when
    the metadata has no such key. *)
Record auth_user : Type := {
  new_id : string;
  new_email : string;
  raw_full_name : option string }.

(** [COALESCE(a, b)] *)
Definition COALESCE (a : option string) (b : string) : string :=
  match a with
  | Some x => x
  | None => b
  end.

(** The row [handle_new_user] inserts. *)
Definition new_profile (NEW : auth_user) : profile_row :=
  {| profile_user_id := new_id NEW;
     email := new_email NEW;
     full_name := Some (COALESCE (raw_full_name NEW) (new_email NEW)) |}.

(** Some profile already has this [user_id]. *)
Definition has_profile (d : database) (user_id : string) : bool :=
  bool_decide (map_Exists (fun _ p => profile_user_id p = user_id) (profiles d)).

(** [on_auth_user_created]: [handle_new_user] runs for the new row, as
    the owner of the function (no policy applies). [id] is the key the
    store generates for the profile. The insert is rejected ([None])
    when the key is taken or, [user_id] being UNIQUE, when the user has a
    profile. *)
Definition handle_new_user (id : string) (NEW : auth_user) (d : database)
    : option database :=
  if bool_decide (profiles d !! id = None) && negb (has_profile d (new_id NEW))
  then Some {| profiles := <[id := new_profile NEW]> (profiles d);
               projects := projects d; chats := chats d;
               messages := messages d; files := files d |}
  else None.

End Trigger.

(** ** The client components that call the relays *)

Module Frontend.

(** [toast({ title, description, variant })]. A description that is
    taken from an error object of the client library is [None]. *)
Record toast : Type := {
  title : string;
  description : option string;
  variant : option string }.

(** How a call of a function goes: the relay runs and its answer
    arrives; the function is not reached; the relay runs and its answer
    is lost on the way back. *)
Inductive delivery : Type := Delivered | NotReached | AnswerLost.

(** What a component finds around it: the signed-in user's id
    ([useAuth().user], whose session is the requester of every
    statement), whether the store can be reached, how the calls of a
    function go ([functions n] for the call number [n] of one run of a
    handler of the component), the file name the relay reads back from a
    multipart body for the name of a file that was sent, and the
    environment the relays run in. *)
Record frontend : Type := {
  user : option string;
  store_reachable : bool;
  functions : nat -> delivery;
  sent_name : string -> string;
  backend : environment }.

(** [supabase.functions.invoke(name, { body })]: the relay runs on the
    posted body; [data] is its JSON body when the status is 2xx and the
    answer arrives, and there is an [error] ([None]) otherwise. *)
Definition invoke (how : delivery) (relay : M response) : M (option body) :=
  match how with
  | NotReached => ret None
  | Delivered | AnswerLost =>
      fun w =>
        let r := relay w in
        {| result :=
             Normal match how, result r with
                    | Delivered, Normal answer =>
                        if ((200 <=? status answer) && (status answer <=? 299))%N
                        then Some (response_body answer)
                        else None
                    | _, _ => None
                    end;
           final := final r;
           calls := calls r |}
  end.

End Frontend.

Module ChatInterface.

Import Frontend.

(** A [Message] of the component state; its [id] and [created_at] are
    left out, as for the rows. *)
Record Message : Type := {
  role : string;
  content : value }.

(** The state of the component ([useState]). *)
Record state : Type := {
  messages : list Message;
  inputMessage : string;
  loading : bool;
  loadingMessages : bool }.

(** The properties: [project.id] and [selectedChat?.id]. *)
Record props : Type := {
  project : string;
  selectedChat : option string }.

Definition set_messages (ms : list Message) (st : state) : state :=
  {| messages := ms; inputMessage := inputMessage st; loading := loading st;
     loadingMessages := loadingMessages st |}.

Definition set_loading (b : bool) (st : state) : state :=
  {| messages := messages st; inputMessage := inputMessage st; loading := b;
     loadingMessages := loadingMessages st |}.

(** A row as the component holds it. *)
Definition of_row (r : message_row) : Message :=
  {| role := m_role r; content := Some (JStr (m_content r)) |}.

(** [{ role: msg.role, content: msg.content }] as it is posted: a
    property that is [undefined] is not serialised. *)
Definition posted (msg : Message) : json :=
  JObj (("role", JStr (role msg))
          :: match content msg with
             | Some c => [("content", c)]
             | None => []
             end).

Definition error_toast (description : option string) : toast :=
  {| title := "Error"; description := description; variant := Some "destructive" |}.

(** The [data] of the query of [loadMessages]: the rows of the chat the
    requester can read, oldest first (rows are kept in the order of
    their insertion, which is the order of [created_at]). *)
Definition loaded (uid : option string) (chat : string) (d : database) : list Message :=
  of_row <$> Client.select_messages uid (fun r => String.eqb (m_chat_id r) chat) d.

Definition loadMessages (fe : frontend) (p : props) (st : state) (d : database)
    : state * list toast :=
  match selectedChat p with
  | None => (st, [])
  | Some chat =>
      if store_reachable fe
      then ({| messages := loaded (user fe) chat d; inputMessage := inputMessage st;
               loading := loading st; loadingMessages := false |}, [])
      else ({| messages := messages st; inputMessage := inputMessage st;
               loading := loading st; loadingMessages := false |},
            [error_toast (Some "Failed to load messages")])
  end.

(** The insert of the user's turn by the signed-in client. *)
Definition save_turn (fe : frontend) (chat userMessage : string) : M bool :=
  fun w =>
    match (if store_reachable fe
           then Client.sendMessage_insert (user fe) chat userMessage (db w)
           else None) with
    | Some d' => {| result := Normal true; final := set_db d' w; calls := [] |}
    | None => {| result := Normal false; final := w; calls := [] |}
    end.

(** The request [sendMessage] posts to the completion relay. *)
Definition completion_request (fe : frontend) (p : props) (chat : string)
    (allMessages : list json) : ChatCompletion.request :=
  {| ChatCompletion.method := "POST";
     ChatCompletion.authorization := user fe;
     ChatCompletion.json_body :=
       Some (JObj [("messages", JArr allMessages); ("chatId", JStr chat);
                   ("projectId", JStr (project p))]) |}.

(** [data.message] *)
Definition data_message (data : body) : value :=
  match data with
  | CompletionBody message _ => message
  | UploadBody _ _ message => Some (JStr message)
  | ErrorBody _ => undefined
  | NoBody => undefined
  end.

(** [sendMessage], with [String.prototype.trim] taken as given. It
    yields the state the component is left in and the toasts it showed.
    The error of a refused save is an object of the client library and
    no [Error]: the toast then carries the literal of the [catch] block.
    The error of a failed call is wrapped in [new Error(..)] with the
    text of the library. *)
Definition sendMessage (trim : string -> string) (fe : frontend) (p : props) (st : state)
    : M (state * list toast) :=
  match selectedChat p, user fe with
  | Some chat, Some _ =>
      if String.eqb (trim (inputMessage st)) "" then ret (st, [])
      else
        let userMessage := trim (inputMessage st) in
        let st1 := {| messages := messages st; inputMessage := ""; loading := true;
                      loadingMessages := loadingMessages st |} in
        let! saved := save_turn fe chat userMessage in
        if negb saved
        then ret (set_loading false st1, [error_toast (Some "Failed to send message")])
        else
          let newUserMessage := {| role := "user"; content := Some (JStr userMessage) |} in
          let st2 := set_messages (messages st1 ++ [newUserMessage])%list st1 in
          let allMessages := posted <$> (messages st ++ [newUserMessage])%list in
          let! data :=
            invoke (functions fe 0)
              (ChatCompletion.chat_completion (backend fe)
                 (completion_request fe p chat allMessages)) in
          match data with
          | None => ret (set_loading false st2, [error_toast None])
          | Some data =>
              let assistantMessage :=
                {| role := "assistant"; content := data_message data |} in
              ret (set_loading false
                     (set_messages (messages st2 ++ [assistantMessage])%list st2),
                   [])
          end
  | _, _ => ret (st, [])
  end.

End ChatInterface.

Module FileUpload.

Import Frontend.

(** [20 * 1024 * 1024] *)
Definition maxSize : Z := 20 * 1024 * 1024.

(** The [File] the relay reads from the multipart body for a file that
    was appended to the form: the bytes are the same; a file without a
    type is sent as [application/octet-stream]; the name goes through
    the encoding of the body. *)
Definition as_received (fe : frontend) (file : File) : File :=
  {| file_name := sent_name fe (file_name file);
     file_type := if String.eqb (file_type file) "" then "application/octet-stream"
                  else file_type file;
     file_bytes := file_bytes file |}.

Definition upload_request (fe : frontend) (projectId userId : string) (file : File)
    : UploadFile.request :=
  {| UploadFile.method := "POST";
     UploadFile.authorization := user fe;
     UploadFile.formData :=
       Some {| UploadFile.form_file := Some (as_received fe file);
               UploadFile.form_projectId := Some projectId;
               UploadFile.form_userId := Some userId |} |}.

(** The body of the loop of [onDrop] for one file: the toast it shows.
    [env] is the environment in which this invocation of the function
    runs, [how] the way the call goes. *)
Definition upload_one (fe : frontend) (env : environment) (how : delivery)
    (projectId userId : string) (file : File) : M toast :=
  if (maxSize <? file_size file)%Z
  then ret {| title := "File too large";
              description := Some (file_name file +:+ " is larger than 20MB");
              variant := Some "destructive" |}
  else
    let! data := invoke how (UploadFile.upload_file env
                               (upload_request fe projectId userId file)) in
    match data with
    | None =>
        ret {| title := "Upload failed";
               description := Some ("Failed to upload " +:+ file_name file);
               variant := Some "destructive" |}
    | Some _ =>
        ret {| title := "File uploaded";
               description := Some (file_name file +:+ " uploaded successfully");
               variant := None |}
    end.

(** [for (const x of xs) { .. }], collecting what each round yields;
    [i] counts the rounds. *)
Fixpoint for_of {A B : Type} (f : nat -> A -> M B) (i : nat) (xs : list A) : M (list B) :=
  match xs with
  | [] => ret []
  | x :: rest =>
      let! y := f i x in
      let! ys := for_of f (S i) rest in
      ret (y :: ys)
  end.

(** [onDrop]: nothing without a user; otherwise one round per accepted
    file, in order, with [userId: user.id]. Every invocation of the
    function runs in an environment of its own ([backend_at i] for round
    [i]: its own random identifier, its own upstream answers) and goes
    its own way ([functions fe i]). Neither [invoke] nor [toast] throws,
    so the [catch] of the source is never entered; [setUploading] and
    the callback [onFilesChange] are left out. *)
Definition onDrop (fe : frontend) (backend_at : nat -> environment) (projectId : string)
    (acceptedFiles : list File) : M (list toast) :=
  match user fe with
  | None => ret []
  | Some userId =>
      for_of (fun i => upload_one fe (backend_at i) (functions fe i) projectId userId)
        0 acceptedFiles
  end.

(** What a call made during a drop may be, for the file of its round:
    the file is the one the relay received. *)
Definition drop_call (fe : frontend) (projectId userId : string) (file : File) (e : event)
    : Prop :=
  match e with
  | CallStorageUpload path f _ =>
      f = as_received fe file /\ String.prefix (userId +:+ "/") path = true
  | CallFilesInsert r _ =>
      f_project_id r = projectId /\ f_name r = file_name (as_received fe file) /\
      f_size r = file_size file /\ f_type r = file_type (as_received fe file) /\
      String.prefix (userId +:+ "/") (f_storage_path r) = true
  | CallOpenAIFiles _ f => f = as_received fe file
  | CallProjectsSelect _ | CallChatCompletions _ _ | CallMessagesInsert _ _ _ _ => False
  end.

(** A row of [file] is stored for [projectId], and the file, as the
    relay received it, is in the bucket under the key of the path of the
    row ([env] is the environment of the invocation that stored it). *)
Definition stored (fe : frontend) (env : environment) (projectId userId : string)
    (file : File) (w : world) : Prop :=
  exists r,
    In r (files (db w)) /\
    f_project_id r = projectId /\ f_name r = file_name (as_received fe file) /\
    f_size r = file_size file /\ f_type r = file_type (as_received fe file) /\
    String.prefix (userId +:+ "/") (f_storage_path r) = true /\
    bucket w !! object_key env (f_storage_path r) = Some (as_received fe file).

(** From [w] to [w'] at most [n] rows were appended to [files], all for
    [projectId]; objects were only added; the other tables are as
    before. *)
Definition only_files_added (projectId : string) (n : nat) (w w' : world) : Prop :=
  projects (db w') = projects (db w) /\
  chats (db w') = chats (db w) /\
  messages (db w') = messages (db w) /\
  profiles (db w') = profiles (db w) /\
  (forall path object, bucket w !! path = Some object -> bucket w' !! path = Some object) /\
  exists new,
    files (db w') = (files (db w) ++ new)%list /\
    length new <= n /\
    Forall (fun r => f_project_id r = projectId) new.

(** [DELETE FROM files WHERE ..] by a signed-in client, as [deleteFile]
    issues it for one row: only rows the DELETE policy accepts go. *)
Definition delete_files (uid : option string) (where_ : file_row -> bool) (d : database)
    : database :=
  with_files d
    (List.filter (fun f => negb (where_ f && permitted uid d DELETE (FileRow f))) (files d)).

End FileUpload.

(** The changes of the store by the program: a transition above, the
    creation of a project or of a chat, the deletion of file rows, the
    profile of a new user. *)
Inductive change : database -> database -> Prop :=
| change_transition d d' : transition d d' -> change d d'
| change_project uid id r d d' :
    Dashboard.insert_project uid id r d = Some d' -> change d d'
| change_chat uid id r d d' :
    Dashboard.insert_chat uid id r d = Some d' -> change d d'
| change_delete_files uid where_ d :
    change d (FileUpload.delete_files uid where_ d)
| change_new_user id NEW d d' :
    Trigger.handle_new_user id NEW d = Some d' -> change d d'.

(** ** Further concrete requests and environments *)

Module MoreExamples.

(** [say_hi] for a project that does not exist. *)
Definition ask_unknown_project : ChatCompletion.request :=
  Examples.completion_request "POST"
    (Some (JObj [("messages", JArr [Examples.hi]); ("chatId", JStr "c1");
                 ("projectId", JStr "p9")])).

(** [Examples.store None] with an object already stored under the key
    the relay derives for [upload_notes "alice"]. *)
Definition store_with_object : world :=
  {| db := db (Examples.store None);
     bucket :=
       {[ "alice/3f0c2a1e-7b4d-4c8e-9a51-0d6e2b9f4c77.txt" :=
            {| file_name := "old.txt"; file_type := "text/plain"; file_bytes := [] |} ]} |}.


(** The browser of a user, with everything reachable and every answer
    arriving. *)
Definition browser (user : string) (backend : environment) : Frontend.frontend :=
  {| Frontend.user := Some user; Frontend.store_reachable := true;
     Frontend.functions := fun _ => Frontend.Delivered;
     Frontend.sent_name := fun name => name;
     Frontend.backend := backend |}.

Definition alice : environment -> Frontend.frontend := browser "alice".

Definition bob : environment -> Frontend.frontend := browser "bob".


(** The chat [c1] of project [p1] is open and [text] is typed in. *)
Definition chat_open : ChatInterface.props :=
  {| ChatInterface.project := "p1"; ChatInterface.selectedChat := Some "c1" |}.

Definition typed (text : string) : ChatInterface.state :=
  {| ChatInterface.messages := []; ChatInterface.inputMessage := text;
     ChatInterface.loading := false; ChatInterface.loadingMessages := false |}.

(** A stand-in for [trim] on inputs without outer white space. *)
Definition no_trim (s : string) : string := s.

(** [say_hi] with the project given as the list [["p1"]]. *)
Definition say_hi_listing_project : ChatCompletion.request :=
  Examples.completion_request "POST"
    (Some (JObj [("messages", JArr [Examples.hi]); ("chatId", JStr "c1");
                 ("projectId", JArr [JStr "p1"])])).

(** An environment in which the completion API answers with the number
    42 as content. *)
Definition says_42 : environment :=
  Examples.environment_with (Some "sk-test")
    (Some {| http_status := 200; http_text := "";
             http_json := Some (Examples.answer (JNum 42)) |})
    (Some Examples.mirrored) Examples.no_failure.

(** A file without a type. *)
Definition untyped : File :=
  {| file_name := "data"; file_type := ""; file_bytes := [Byte.x00; Byte.x01] |}.

(** Every invocation runs in the same kind of environment. *)
Definition always (env : environment) : nat -> environment := fun _ => env.

End MoreExamples.

(** * Properties *)

(** ** Rules for runs *)

Section Rules.

Context {A B : Type}.
Implicit Types (w : world) (e : exn).

Lemma wp_ret (a : A) w (Q : completion A -> world -> list event -> Prop) :
  Q (Normal a) w [] -> wp (ret a) w Q.
Proof. intros H; exact H. Qed.

Lemma wp_throw e w (Q : completion A -> world -> list event -> Prop) :
  Q (Throw e) w [] -> wp (throw e) w Q.
Proof. intros H; exact H. Qed.

Lemma wp_lift (c : completion A) w (Q : completion A -> world -> list event -> Prop) :
  Q c w [] -> wp (lift c) w Q.
Proof. intros H; exact H. Qed.

Lemma wp_await (x : option A) (err : engine_error) w
    (Q : completion A -> world -> list event -> Prop) :
  match x with
  | Some a => Q (Normal a) w []
  | None => Q (Throw (Raised err)) w []
  end ->
  wp (await x err) w Q.
Proof. destruct x; intros H; exact H. Qed.

Lemma wp_bind (m : M A) (k : A -> M B) w
    (Q : completion B -> world -> list event -> Prop) :
  wp m w (fun c w' evs =>
    match c with
    | Normal a => wp (k a) w' (fun c' w'' evs' => Q c' w'' (evs ++ evs')%list)
    | Throw e => Q (Throw e) w' evs
    end) ->
  wp (bind m k) w Q.
Proof. unfold wp, bind. destruct (result (m w)); intros H; exact H. Qed.

Lemma wp_try_catch (m : M A) (h : exn -> M A) w
    (Q : completion A -> world -> list event -> Prop) :
  wp m w (fun c w' evs =>
    match c with
    | Normal a => Q (Normal a) w' evs
    | Throw e => wp (h e) w' (fun c' w'' evs' => Q c' w'' (evs ++ evs')%list)
    end) ->
  wp (try_catch m h) w Q.
Proof.
  unfold wp, try_catch. destruct (result (m w)) eqn:E; [rewrite E|]; intros H; exact H.
Qed.

End Rules.

Section CallRules.

Variable env : environment.

Lemma wp_projects_select (pid : value) w
    (Q : completion (option (option string)) -> world -> list event -> Prop) :
  match filter_text env pid with
  | Throw e => Q (Throw e) w []
  | Normal text => Q (Normal (project_data env (db w) text)) w [CallProjectsSelect pid]
  end ->
  wp (projects_select env pid) w Q.
Proof.
  unfold wp, projects_select. destruct (filter_text env pid); intros H; exact H.
Qed.

Lemma wp_messages_insert (chat_id : value) (role : string) (content : value) w
    (Q : completion bool -> world -> list event -> Prop) :
  match message_to_store env (db w) chat_id role content with
  | Some r =>
      Q (Normal true) (set_db (with_messages (db w) (messages (db w) ++ [r])) w)
        [CallMessagesInsert chat_id role content true]
  | None => Q (Normal false) w [CallMessagesInsert chat_id role content false]
  end ->
  wp (messages_insert env chat_id role content) w Q.
Proof.
  unfold wp, messages_insert.
  destruct (message_to_store env (db w) chat_id role content); intros H; exact H.
Qed.

Lemma wp_storage_upload (path : string) (file : File) w
    (Q : completion bool -> world -> list event -> Prop) :
  (if negb (store_fails env StorageUpload)
      && bool_decide (bucket w !! object_key env path = None)
   then Q (Normal true) (set_bucket (<[object_key env path := file]> (bucket w)) w)
          [CallStorageUpload path file true]
   else Q (Normal false) w [CallStorageUpload path file false]) ->
  wp (storage_upload env path file) w Q.
Proof.
  unfold wp, storage_upload.
  destruct (negb (store_fails env StorageUpload)
            && bool_decide (bucket w !! object_key env path = None));
    intros H; exact H.
Qed.

Lemma wp_files_insert (r : file_row) w
    (Q : completion (option file_row) -> world -> list event -> Prop) :
  (if negb (store_fails env FilesInsert) && file_constraints (db w) r
   then Q (Normal (Some r)) (set_db (with_files (db w) (files (db w) ++ [r])) w)
          [CallFilesInsert r true]
   else Q (Normal None) w [CallFilesInsert r false]) ->
  wp (files_insert env r) w Q.
Proof.
  unfold wp, files_insert.
  destruct (negb (store_fails env FilesInsert) && file_constraints (db w) r);
    intros H; exact H.
Qed.

Lemma wp_fetch_chat_completions (key : string) (body : chat_request) w
    (Q : completion http_response -> world -> list event -> Prop) :
  Q (match chat_completions env key body with
     | Some r => Normal r
     | None => Throw (Raised FetchFailed)
     end) w [CallChatCompletions key body] ->
  wp (fetch_chat_completions env key body) w Q.
Proof. intros H; exact H. Qed.

Lemma wp_fetch_openai_files (key : string) (file : File) w
    (Q : completion http_response -> world -> list event -> Prop) :
  Q (match openai_files env key file with
     | Some r => Normal r
     | None => Throw (Raised FetchFailed)
     end) w [CallOpenAIFiles key file] ->
  wp (fetch_openai_files env key file) w Q.
Proof. intros H; exact H. Qed.

End CallRules.

(** One step of symbolic execution of a handler. *)
Ltac wp_step :=
  lazymatch goal with
  | |- wp (bind _ _) _ _ => apply wp_bind
  | |- wp (try_catch _ _) _ _ => apply wp_try_catch
  | |- wp (ret _) _ _ => apply wp_ret
  | |- wp (throw _) _ _ => apply wp_throw
  | |- wp (lift _) _ _ => apply wp_lift
  | |- wp (await _ _) _ _ => apply wp_await
  | |- wp (projects_select _ _) _ _ => apply wp_projects_select
  | |- wp (messages_insert _ _ _ _) _ _ => apply wp_messages_insert
  | |- wp (storage_upload _ _ _) _ _ => apply wp_storage_upload
  | |- wp (files_insert _ _) _ _ => apply wp_files_insert
  | |- wp (fetch_chat_completions _ _ _) _ _ => apply wp_fetch_chat_completions
  | |- wp (fetch_openai_files _ _ _) _ _ => apply wp_fetch_openai_files
  | |- wp (if ?b then _ else _) _ _ => destruct b eqn:?
  | |- wp (match ?x with _ => _ end) _ _ => destruct x eqn:?
  | |- (if ?b then _ else _) => destruct b eqn:?
  | |- match ?x with _ => _ end => destruct x eqn:?
  end; cbn [negb].

Ltac wp_run := cbn [negb]; repeat wp_step.

(** Which event of a concrete list of calls [H : In e evs] is about. *)
Ltac in_cases H :=
  simpl in H;
  repeat lazymatch type of H with
         | _ \/ _ => destruct H as [H | H]; [try discriminate H |]
         | False => destruct H
         end.

(** ** Missing parameters *)

Lemma get_supplied (req : ChatCompletion.request) (parsed : json) (k : string) (v : value) :
  ChatCompletion.json_body req = Some parsed ->
  get (Some parsed) k = Normal v ->
  v = supplied req k.
Proof.
  intros Hb Hg. unfold supplied. rewrite Hb.
  destruct parsed; simpl in Hg; congruence.
Qed.

Lemma get_throws_null (parsed : json) (k : string) (e : exn) :
  get (Some parsed) k = Throw e -> parsed = JNull.
Proof. destruct parsed; simpl; congruence. Qed.

Lemma completion_check_fails (req : ChatCompletion.request) (parsed : json)
    (messages chatId projectId : value) :
  completion_field_missing req ->
  ChatCompletion.json_body req = Some parsed ->
  get (Some parsed) "messages" = Normal messages ->
  get (Some parsed) "chatId" = Normal chatId ->
  get (Some parsed) "projectId" = Normal projectId ->
  negb (truthy messages) || negb (truthy chatId) || negb (truthy projectId) = true.
Proof.
  intros Hmiss Hb Hm Hc Hp.
  rewrite (get_supplied req parsed _ _ Hb Hm), (get_supplied req parsed _ _ Hb Hc),
    (get_supplied req parsed _ _ Hb Hp).
  destruct Hmiss as [-> | [-> | ->]]; simpl; rewrite ?orb_true_r; reflexivity.
Qed.

Lemma completion_missing_parameters env req w :
  completion_field_missing req ->
  wp (ChatCompletion.chat_completion env req) w (fun c w' evs =>
    evs = [] /\ w' = w /\
    exists r, c = Normal r /\
      (ChatCompletion.method req = "OPTIONS" -> r = preflight) /\
      (ChatCompletion.method req <> "OPTIONS" ->
         exists error, r = error_envelope error /\
           forall parsed, ChatCompletion.json_body req = Some parsed -> parsed <> JNull ->
             error = missing_completion_parameters)).
Proof.
  intros Hmiss. unfold ChatCompletion.chat_completion.
  destruct (String.eqb_spec (ChatCompletion.method req) "OPTIONS") as [Hm | Hm].
  { apply wp_ret. naive_solver. }
  unfold ChatCompletion.handle. apply wp_try_catch, wp_bind, wp_await.
  destruct (ChatCompletion.json_body req) as [parsed|] eqn:Hb; cbn beta iota.
  2: { apply wp_ret. naive_solver. }
  do 3 (apply wp_bind, wp_lift; cbn beta iota;
        match goal with |- match ?c with _ => _ end => destruct c eqn:? end; cbn beta iota;
        [| apply wp_ret; split_and!; [done..|]; eexists; split_and!; [done..|];
           intros _; eexists; split; [done|];
           intros ? [= <-] Hnn; exfalso; eauto using get_throws_null ]).
  rewrite (completion_check_fails req parsed a a0 a1) by assumption.
  apply wp_throw; cbn beta iota. apply wp_ret. naive_solver.
Qed.

Lemma upload_missing_parameters env req w :
  upload_field_missing req ->
  wp (UploadFile.upload_file env req) w (fun c w' evs =>
    evs = [] /\ w' = w /\
    exists r, c = Normal r /\
      (UploadFile.method req = "OPTIONS" -> r = preflight) /\
      (UploadFile.method req <> "OPTIONS" ->
         exists error, r = error_envelope error /\
           forall form, UploadFile.formData req = Some form ->
             error = missing_upload_parameters)).
Proof.
  unfold upload_field_missing. intros Hmiss. unfold UploadFile.upload_file.
  destruct (String.eqb_spec (UploadFile.method req) "OPTIONS") as [Hm | Hm].
  { apply wp_ret. naive_solver. }
  unfold UploadFile.handle. apply wp_try_catch, wp_bind, wp_await.
  destruct (UploadFile.formData req) as [form|] eqn:Hf; cbn beta iota.
  2: { clear Hmiss. apply wp_ret. naive_solver. }
  destruct (UploadFile.form_file form) as [file|] eqn:Hfile.
  2: { clear Hmiss. apply wp_throw; cbn beta iota. apply wp_ret. naive_solver. }
  destruct Hmiss as [? | Hmiss]; [done|].
  replace (negb (truthy_string (UploadFile.form_projectId form))
           || negb (truthy_string (UploadFile.form_userId form))) with true
    by (destruct Hmiss as [-> | ->]; simpl; rewrite ?orb_true_r; reflexivity).
  clear Hmiss. apply wp_throw; cbn beta iota. apply wp_ret. naive_solver.
Qed.

(** C4, as amended. A request to either relay in which a required field
    is missing (or falsy) makes no storage, database or upstream call and
    leaves the store as it was, and the relay always completes with a
    response: the empty preflight response when the method is OPTIONS,
    otherwise the error envelope with status 500, whose message is the
    missing-parameter text whenever the body could be read (a JSON value
    other than null for the completion relay, a form for the upload
    relay). *)
Theorem missing_parameters_error_envelope :
  (forall env req w,
     completion_field_missing req ->
     calls (ChatCompletion.chat_completion env req w) = [] /\
     final (ChatCompletion.chat_completion env req w) = w /\
     exists r,
       result (ChatCompletion.chat_completion env req w) = Normal r /\
       (ChatCompletion.method req = "OPTIONS" -> r = preflight) /\
       (ChatCompletion.method req <> "OPTIONS" ->
          exists error,
            r = {| status := 500; headers := json_headers;
                   response_body := ErrorBody error |} /\
            forall parsed,
              ChatCompletion.json_body req = Some parsed -> parsed <> JNull ->
              error = Error "Missing required parameters: messages, chatId, and projectId"))
  /\
  (forall env req w,
     upload_field_missing req ->
     calls (UploadFile.upload_file env req w) = [] /\
     final (UploadFile.upload_file env req w) = w /\
     exists r,
       result (UploadFile.upload_file env req w) = Normal r /\
       (UploadFile.method req = "OPTIONS" -> r = preflight) /\
       (UploadFile.method req <> "OPTIONS" ->
          exists error,
            r = {| status := 500; headers := json_headers;
                   response_body := ErrorBody error |} /\
            forall form,
              UploadFile.formData req = Some form ->
              error = Error "Missing required parameters: file, projectId, and userId")).
Proof.
  split; intros env req w Hmiss.
  - exact (completion_missing_parameters env req w Hmiss).
  - exact (upload_missing_parameters env req w Hmiss).
Qed.

(** The theorem at a POST without [chatId] and at an upload without
    [userId]. *)
Lemma missing_parameters_error_envelope_witness :
  result (ChatCompletion.chat_completion Examples.healthy
            (Examples.completion_request "POST"
               (Some (JObj [("messages", JArr [Examples.hi]); ("projectId", JStr "p1")])))
            (Examples.store None))
    = Normal (error_envelope missing_completion_parameters) /\
  result (UploadFile.upload_file Examples.healthy
            (Examples.upload_request "POST"
               (Some {| UploadFile.form_file := Some Examples.notes;
                        UploadFile.form_projectId := Some "p1";
                        UploadFile.form_userId := None |}))
            (Examples.store None))
    = Normal (error_envelope missing_upload_parameters).
Proof.
  destruct missing_parameters_error_envelope as [Hc Hu]. split.
  - destruct (Hc Examples.healthy
                (Examples.completion_request "POST"
                   (Some (JObj [("messages", JArr [Examples.hi]); ("projectId", JStr "p1")])))
                (Examples.store None))
      as (_ & _ & r & Hr & _ & Herr).
    { right; left; reflexivity. }
    destruct Herr as (error & -> & Hmsg); [discriminate|].
    rewrite Hr, (Hmsg _ eq_refl); [reflexivity | discriminate].
  - destruct (Hu Examples.healthy
                (Examples.upload_request "POST"
                   (Some {| UploadFile.form_file := Some Examples.notes;
                            UploadFile.form_projectId := Some "p1";
                            UploadFile.form_userId := None |}))
                (Examples.store None))
      as (_ & _ & r & Hr & _ & Herr).
    { right; right; reflexivity. }
    destruct Herr as (error & -> & Hmsg); [discriminate|].
    rewrite Hr, (Hmsg _ eq_refl); reflexivity.
Defined.

(** C4 as stated fails: a preflight request carries none of the fields
    and is answered with the empty 200 response, not the envelope; and a
    POST whose body is the JSON value [null], or an upload whose body is
    no form, is answered with the envelope of the engine's own error, not
    of the missing-parameter one. *)
Lemma missing_parameters_not_always_described :
  (completion_field_missing (Examples.completion_request "OPTIONS" None) /\
   result (ChatCompletion.chat_completion Examples.healthy
             (Examples.completion_request "OPTIONS" None) (Examples.store None))
     = Normal {| status := 200; headers := corsHeaders; response_body := NoBody |}) /\
  (upload_field_missing (Examples.upload_request "OPTIONS" None) /\
   result (UploadFile.upload_file Examples.healthy
             (Examples.upload_request "OPTIONS" None) (Examples.store None))
     = Normal {| status := 200; headers := corsHeaders; response_body := NoBody |}) /\
  (completion_field_missing (Examples.completion_request "POST" (Some JNull)) /\
   result (ChatCompletion.chat_completion Examples.healthy
             (Examples.completion_request "POST" (Some JNull)) (Examples.store None))
     = Normal (error_envelope (Raised NullishAccess)) /\
   Raised NullishAccess <> missing_completion_parameters) /\
  (upload_field_missing (Examples.upload_request "POST" None) /\
   result (UploadFile.upload_file Examples.healthy
             (Examples.upload_request "POST" None) (Examples.store None))
     = Normal (error_envelope (Raised BodyNotReadable)) /\
   Raised BodyNotReadable <> missing_upload_parameters).
Proof.
  repeat split; try (left; reflexivity); try reflexivity; discriminate.
Qed.

(** ** The completion relay *)

Section CompletionRelay.

Import ChatCompletion.

Lemma ok_false (r : http_response) :
  ok r = false <-> ~ (200 <= http_status r <= 299)%N.
Proof. unfold ok. rewrite andb_false_iff, !N.leb_gt. lia. Qed.

Lemma project_fetched (env : environment) (d : database) (text : string)
    (o : option string) :
  project_data env d text = Some o ->
  exists row, projects d !! text = Some row /\ o = p_system_prompt row.
Proof.
  unfold project_data. destruct (store_fails env ProjectsSelect); [discriminate|].
  destruct (projects d !! text) as [row|] eqn:Hrow; [|discriminate].
  intros [= <-]. eauto.
Qed.

Lemma filter_text_string (env : environment) (pid : string) :
  filter_text env (Some (JStr pid)) = Normal pid.
Proof. reflexivity. Qed.

Lemma column_text_string (env : environment) (v : value) (s text : string) :
  column_text env v = Some text -> v = Some (JStr s) -> text = s.
Proof. intros H ->. simpl in H. congruence. Qed.

Lemma message_to_store_Some (env : environment) (d : database) (chat_id : value)
    (role : string) (content : value) (r : message_row) :
  message_to_store env d chat_id role content = Some r ->
  exists chat text,
    column_text env chat_id = Some chat /\ column_text env content = Some text /\
    r = {| m_chat_id := chat; m_role := role; m_content := text |} /\
    message_constraints d r = true.
Proof.
  unfold message_to_store.
  destruct (column_text env chat_id) as [chat|]; [|discriminate].
  destruct (column_text env content) as [text|]; [|discriminate].
  destruct (negb (store_fails env MessagesInsert)); [|discriminate]. simpl.
  destruct (message_constraints d _) eqn:Hc; [|discriminate].
  intros [= <-]. eauto 10.
Qed.

Lemma spread_array (items history : list json) :
  spread (Some (JArr items)) = Normal history -> history = items.
Proof. simpl. congruence. Qed.

(** What is known once the completion API has been called. *)
Lemma upstream_call_inversion env req w :
  wp (chat_completion env req) w (fun c w' evs =>
    forall key body,
      In (CallChatCompletions key body) evs ->
      exists parsed messages id text p history,
        json_body req = Some parsed /\
        get (Some parsed) "messages" = Normal messages /\
        get (Some parsed) "projectId" = Normal id /\
        filter_text env id = Normal text /\
        projects (db w) !! text = Some p /\
        spread messages = Normal history /\
        chat_messages body = system_entry (p_system_prompt p) :: history /\
        sent_upstream evs = [body]).
Proof.
  unfold chat_completion, handle. wp_run.
  all: intros key' body' Hin; in_cases Hin; simplify_eq.
  all: match goal with
       | H : project_data _ _ _ = Some _ |- _ =>
           apply project_fetched in H; destruct H as (row & Hrow & ->)
       end.
  all: eauto 14.
Qed.

(** C1, as amended. Whenever the completion relay calls the completion
    API, the message array it sends is the caller-supplied history (the
    elements of [messages]) with one system-role entry prepended at
    position 0, and that is the only call; the entry holds the fetched
    project's system prompt when that is a non-empty string, and the
    default text otherwise. The fetched project is the one whose id is
    the text the filter makes of the supplied [projectId]: a string as it
    is. *)
Theorem system_entry_prepended env req w key body :
  In (CallChatCompletions key body) (calls (chat_completion env req w)) ->
  exists parsed messages id text p history,
    json_body req = Some parsed /\
    get (Some parsed) "messages" = Normal messages /\
    get (Some parsed) "projectId" = Normal id /\
    filter_text env id = Normal text /\
    (forall pid, id = Some (JStr pid) -> text = pid) /\
    projects (db w) !! text = Some p /\
    spread messages = Normal history /\
    (forall items, messages = Some (JArr items) -> history = items) /\
    chat_messages body =
      JObj [("role", JStr "system");
            ("content",
             JStr (match p_system_prompt p with
                   | Some prompt =>
                       if String.eqb prompt "" then "You are a helpful AI assistant."
                       else prompt
                   | None => "You are a helpful AI assistant."
                   end))] :: history /\
    sent_upstream (calls (chat_completion env req w)) = [body].
Proof.
  intros Hin.
  destruct (upstream_call_inversion env req w key body Hin)
    as (parsed & messages & id & text & p & history
        & Hb & Hm & Hp & Htext & Hrow & Hs & Hsent & Hone).
  exists parsed, messages, id, text, p, history. split_and!; try assumption.
  - intros pid ->. rewrite filter_text_string in Htext. congruence.
  - intros items ->. exact (spread_array _ _ Hs).
Qed.

(** The scenario of the specification: history [[{role:"user",
    content:"hi"}]], stored prompt "You are terse.". *)
Lemma system_entry_prepended_witness :
  map chat_messages
    (sent_upstream (calls (chat_completion Examples.healthy Examples.say_hi
                             (Examples.store (Some "You are terse.")))))
  = [[JObj [("role", JStr "system"); ("content", JStr "You are terse.")];
      JObj [("role", JStr "user"); ("content", JStr "hi")]]].
Proof.
  destruct (system_entry_prepended Examples.healthy Examples.say_hi
              (Examples.store (Some "You are terse.")) "sk-test"
              (Examples.call_with_prompt "You are terse."))
    as (parsed & messages & id & text & p & history & _ & _ & _ & _ & _ & _ & _ & _ & _ & Hone).
  { vm_compute. right; left; reflexivity. }
  rewrite Hone. reflexivity.
Defined.

(** C1 as stated fails: for a project whose stored prompt is the empty
    string, the entry sent upstream does not hold the stored prompt. *)
Lemma stored_prompt_not_always_sent :
  p_system_prompt <$> projects (db (Examples.store (Some ""))) !! "p1" = Some (Some "") /\
  map chat_messages
    (sent_upstream (calls (chat_completion Examples.healthy Examples.say_hi
                             (Examples.store (Some "")))))
  = [[JObj [("role", JStr "system"); ("content", JStr "You are a helpful AI assistant.")];
      JObj [("role", JStr "user"); ("content", JStr "hi")]]] /\
  [JObj [("role", JStr "system"); ("content", JStr "You are a helpful AI assistant.")];
   JObj [("role", JStr "user"); ("content", JStr "hi")]]
  <> [JObj [("role", JStr "system"); ("content", JStr "")];
      JObj [("role", JStr "user"); ("content", JStr "hi")]].
Proof. split_and!; [reflexivity | reflexivity | discriminate]. Qed.

(** C10. When the stored system prompt of the fetched project is null or
    the empty string, the system-role entry sent upstream holds the
    literal default, not the stored value. *)
Theorem empty_prompt_replaced_by_default env req w parsed pid p key body :
  json_body req = Some parsed ->
  get (Some parsed) "projectId" = Normal (Some (JStr pid)) ->
  projects (db w) !! pid = Some p ->
  p_system_prompt p = None \/ p_system_prompt p = Some "" ->
  In (CallChatCompletions key body) (calls (chat_completion env req w)) ->
  head (chat_messages body)
    = Some (JObj [("role", JStr "system");
                  ("content", JStr "You are a helpful AI assistant.")]) /\
  head (chat_messages body)
    <> Some (JObj [("role", JStr "system"); ("content", JStr "")]).
Proof.
  intros Hb Hp Hrow Hempty Hin.
  destruct (upstream_call_inversion env req w key body Hin)
    as (parsed' & messages & id & text & p' & history
        & Hb' & _ & Hp' & Htext & Hrow' & _ & Hsent & _).
  rewrite Hb in Hb'. injection Hb' as <-.
  rewrite Hp in Hp'. injection Hp' as <-.
  rewrite filter_text_string in Htext. injection Htext as <-.
  rewrite Hrow in Hrow'. injection Hrow' as <-.
  rewrite Hsent. unfold system_entry.
  destruct Hempty as [He | He]; rewrite He; simpl; (split; [reflexivity | discriminate]).
Qed.

(** The theorem at a project whose stored prompt is null. *)
Lemma empty_prompt_replaced_by_default_witness :
  In (CallChatCompletions "sk-test" (Examples.call_with_prompt default_system_prompt))
     (calls (chat_completion Examples.healthy Examples.say_hi (Examples.store None))) /\
  head (chat_messages (Examples.call_with_prompt default_system_prompt))
    = Some (JObj [("role", JStr "system");
                  ("content", JStr "You are a helpful AI assistant.")]).
Proof.
  assert (Hin : In (CallChatCompletions "sk-test"
                      (Examples.call_with_prompt default_system_prompt))
                   (calls (chat_completion Examples.healthy Examples.say_hi
                             (Examples.store None))))
    by (right; left; reflexivity).
  split; [exact Hin|].
  exact (proj1 (empty_prompt_replaced_by_default Examples.healthy Examples.say_hi
                  (Examples.store None)
                  (JObj [("messages", JArr [Examples.hi]); ("chatId", JStr "c1");
                         ("projectId", JStr "p1")])
                  "p1"
                  {| p_user_id := "alice"; p_name := "Notes"; p_description := None;
                     p_system_prompt := None |}
                  "sk-test" _ eq_refl eq_refl eq_refl (or_introl eq_refl) Hin)).
Defined.

(** C3. When the completion API answers with a status outside 200-299,
    the relay responds with status 500 and the body
    [{ error: "OpenAI API error: <status> <body>" }], the status in
    decimal and the body text as received; no insert into [messages] is
    attempted and the store is left as it was. *)
Theorem upstream_error_response env req w key body resp :
  In (CallChatCompletions key body) (calls (chat_completion env req w)) ->
  chat_completions env key body = Some resp ->
  ~ (200 <= http_status resp <= 299)%N ->
  result (chat_completion env req w)
    = Normal {| status := 500; headers := json_headers;
                response_body :=
                  ErrorBody (Error ("OpenAI API error: " +:+ pretty (http_status resp)
                                      +:+ " " +:+ http_text resp)) |} /\
  message_inserts (calls (chat_completion env req w)) = [] /\
  final (chat_completion env req w) = w.
Proof.
  intros Hin Hresp Hok. apply ok_false in Hok.
  revert key body resp Hin Hresp Hok.
  change (wp (chat_completion env req) w (fun c w' evs =>
    forall key body resp,
      In (CallChatCompletions key body) evs ->
      chat_completions env key body = Some resp ->
      ok resp = false ->
      c = Normal (error_envelope
                    (Error ("OpenAI API error: " +:+ pretty (http_status resp)
                              +:+ " " +:+ http_text resp))) /\
      message_inserts evs = [] /\ w' = w)).
  unfold chat_completion, handle. wp_run.
  all: intros key' body' resp' Hin Hresp Hok; in_cases Hin; simplify_eq.
  all: rewrite Hresp in *; simplify_eq.
  all: try (rewrite Hok in *; discriminate).
  done.
Qed.

(** The theorem at a 503 whose body is the text [overloaded]. *)
Lemma upstream_error_response_witness :
  result (chat_completion Examples.overloaded Examples.say_hi (Examples.store None))
    = Normal {| status := 500; headers := json_headers;
                response_body := ErrorBody (Error "OpenAI API error: 503 overloaded") |} /\
  messages (db (final (chat_completion Examples.overloaded Examples.say_hi
                         (Examples.store None)))) = [].
Proof.
  destruct (upstream_error_response Examples.overloaded Examples.say_hi
              (Examples.store None) "sk-test"
              (Examples.call_with_prompt default_system_prompt) Examples.unavailable)
    as (Hr & _ & Hf).
  - right; left; reflexivity.
  - reflexivity.
  - simpl. lia.
  - rewrite Hr, Hf. split; reflexivity.
Defined.

(** C2. A success response of the completion relay is preceded by
    exactly one insert into [messages], which the store accepted: the
    table then ends with a new row for the supplied [chatId], with role
    [assistant] and the returned message as content, and that insert is
    the last call made. The row holds what the columns take for the
    supplied [chatId] and the returned message: a string as it is, any
    other value as its text. And when the insert is not accepted, the
    response is the error envelope for the failed save, which carries no
    reply, and no row is added. *)
Theorem reply_persisted_before_returned env req w :
  (forall r message usage,
     result (chat_completion env req w) = Normal r ->
     response_body r = CompletionBody message usage ->
     exists parsed chatId chat text earlier,
       json_body req = Some parsed /\
       get (Some parsed) "chatId" = Normal chatId /\
       column_text env chatId = Some chat /\
       column_text env message = Some text /\
       (forall c, chatId = Some (JStr c) -> chat = c) /\
       (forall t, message = Some (JStr t) -> text = t) /\
       messages (db (final (chat_completion env req w)))
         = (messages (db w)
              ++ [{| m_chat_id := chat; m_role := "assistant"; m_content := text |}])%list /\
       message_inserts (calls (chat_completion env req w)) = [true] /\
       calls (chat_completion env req w)
         = (earlier ++ [CallMessagesInsert chatId "assistant" message true])%list) /\
  (forall chat_id role content,
     In (CallMessagesInsert chat_id role content false) (calls (chat_completion env req w)) ->
     result (chat_completion env req w)
       = Normal {| status := 500; headers := json_headers;
                   response_body := ErrorBody (Error "Failed to save assistant message") |} /\
     messages (db (final (chat_completion env req w))) = messages (db w)).
Proof.
  change (wp (chat_completion env req) w (fun c w' evs =>
    (forall r message usage,
       c = Normal r ->
       response_body r = CompletionBody message usage ->
       exists parsed chatId chat text earlier,
         json_body req = Some parsed /\
         get (Some parsed) "chatId" = Normal chatId /\
         column_text env chatId = Some chat /\
         column_text env message = Some text /\
         (forall c, chatId = Some (JStr c) -> chat = c) /\
         (forall t, message = Some (JStr t) -> text = t) /\
         messages (db w')
           = (messages (db w)
                ++ [{| m_chat_id := chat; m_role := "assistant"; m_content := text |}])%list /\
         message_inserts evs = [true] /\
         evs = (earlier ++ [CallMessagesInsert chatId "assistant" message true])%list) /\
    (forall chat_id role content,
       In (CallMessagesInsert chat_id role content false) evs ->
       c = Normal (error_envelope (Error "Failed to save assistant message")) /\
       messages (db w') = messages (db w)))).
  unfold chat_completion, handle. wp_run.
  all: split;
    [ intros r message usage [= <-] Hbody; try discriminate Hbody
    | intros chat_id' role' content' Hin; in_cases Hin; simplify_eq; try done ].
  match goal with
  | H : message_to_store _ _ _ _ _ = Some _ |- _ =>
      apply message_to_store_Some in H; destruct H as (chat & text & Hchat & Htext & -> & _)
  end.
  injection Hbody as <- <-.
  eexists _, _, chat, text. eexists [_; _]. split_and!; try done.
  - intros c Hc. exact (column_text_string _ _ _ _ Hchat Hc).
  - intros t Ht. exact (column_text_string _ _ _ _ Htext Ht).
Qed.

(** The theorem where the store refuses the insert: the reply [hello]
    was generated, and the caller gets the error envelope. *)
Lemma reply_persisted_before_returned_witness :
  result (chat_completion Examples.refusing_inserts Examples.say_hi (Examples.store None))
    = Normal {| status := 500; headers := json_headers;
                response_body := ErrorBody (Error "Failed to save assistant message") |} /\
  messages (db (final (chat_completion Examples.healthy Examples.say_hi
                         (Examples.store None))))
    = [{| m_chat_id := "c1"; m_role := "assistant"; m_content := "hello" |}].
Proof.
  split.
  - refine (proj1 (proj2 (reply_persisted_before_returned Examples.refusing_inserts
                            Examples.say_hi (Examples.store None))
                     (Some (JStr "c1")) "assistant" (Some (JStr "hello")) _)).
    right; right; left; reflexivity.
  - destruct (proj1 (reply_persisted_before_returned Examples.healthy Examples.say_hi
                       (Examples.store None))
                {| status := 200; headers := json_headers;
                   response_body :=
                     CompletionBody (Some (JStr "hello"))
                       (Some (JObj [("total_tokens", JNum 12)])) |}
                (Some (JStr "hello")) (Some (JObj [("total_tokens", JNum 12)]))
                eq_refl eq_refl)
      as (parsed & chatId & chat & text & earlier & Hb & Hc & _ & _ & Hchat & Htext & Hrows & _).
    injection Hb as <-. injection Hc as <-.
    rewrite (Hchat "c1" eq_refl), (Htext "hello" eq_refl) in Hrows.
    exact Hrows.
Defined.

End CompletionRelay.

(** ** The upload relay *)

Section UploadRelay.

Import UploadFile.

Lemma prefix_append (a b : string) : String.prefix a (a +:+ b) = true.
Proof.
  induction a as [|c a IH]; simpl.
  - destruct b; reflexivity.
  - rewrite IH. destruct (ascii_dec c c); [reflexivity | contradiction].
Qed.

Lemma prefix_append_more (a b c : string) :
  String.prefix (a +:+ b) (a +:+ b +:+ c) = true.
Proof.
  induction a as [|x a IH]; simpl.
  - exact (prefix_append b c).
  - rewrite IH. destruct (ascii_dec x x); [reflexivity | contradiction].
Qed.








(** C7. Once the File row is inserted: with a key configured (set and
    not empty) and a file of at most 20 MiB, exactly one call goes to the
    mirror API, with the uploaded file; with no key (unset or empty),
    none; and whatever
    the mirror answers, the caller gets the success response with the
    inserted row, in which [openaiFileId] is null when no call was made
    or the call failed. *)
Theorem mirror_attempts env req w row :
  In (CallFilesInsert row true) (calls (upload_file env req w)) ->
  exists form file openaiFileId,
    formData req = Some form /\
    form_file form = Some file /\
    (forall key, OPENAI_API_KEY env = Some key -> key <> "" ->
       (Z.of_nat (length (file_bytes file)) <= 20 * 1024 * 1024)%Z ->
       mirror_calls (calls (upload_file env req w)) = [file]) /\
    (OPENAI_API_KEY env = None \/ OPENAI_API_KEY env = Some "" ->
       mirror_calls (calls (upload_file env req w)) = []) /\
    result (upload_file env req w)
      = Normal {| status := 200; headers := json_headers;
                  response_body :=
                    UploadBody row openaiFileId "File uploaded successfully" |} /\
    (mirror_calls (calls (upload_file env req w)) = [] -> openaiFileId = null) /\
    (forall key, OPENAI_API_KEY env = Some key -> mirror_failed (openai_files env key file) ->
       openaiFileId = null).
Proof.
  revert row.
  change (wp (upload_file env req) w (fun c w' evs =>
    forall row,
      In (CallFilesInsert row true) evs ->
      exists form file openaiFileId,
        formData req = Some form /\
        form_file form = Some file /\
        (forall key, OPENAI_API_KEY env = Some key -> key <> "" ->
           (file_size file <= mirror_limit)%Z -> mirror_calls evs = [file]) /\
        (OPENAI_API_KEY env = None \/ OPENAI_API_KEY env = Some "" ->
           mirror_calls evs = []) /\
        c = Normal {| status := 200; headers := json_headers;
                      response_body :=
                        UploadBody row openaiFileId "File uploaded successfully" |} /\
        (mirror_calls evs = [] -> openaiFileId = null) /\
        (forall key, OPENAI_API_KEY env = Some key ->
           mirror_failed (openai_files env key file) -> openaiFileId = null))).
  unfold upload_file, handle, mirror. wp_run.
  all: intros row Hin; in_cases Hin; simplify_eq.
  all: eexists _, _, _; split_and!; try done.
  all: try (intros key [= <-] Hne Hsize).
  all: try (intros key [= <-] Hfail; unfold mirror_failed in Hfail).
  all: try (intros [[=] | [=]]; subst; try done).
  all: try match goal with
           | H : context [openai_files ?e ?k ?f], Hf : match openai_files ?e ?k ?f with _ => _ end
             |- _ => destruct (openai_files e k f) eqn:?; simplify_eq
           end.
  all: try match goal with
           | H : (?k =? "") = true, Hne : ?k <> "" |- _ =>
               apply String.eqb_eq in H; contradiction
           end.
  all: try match goal with
           | H : negb (?k =? "") && (_ <=? _)%Z = false, Hne : ?k <> "", Hs : (_ <= _)%Z |- _ =>
               apply String.eqb_neq in Hne; apply Z.leb_le in Hs; rewrite Hne, Hs in H;
               discriminate
           end.
  all: try (simpl in *; destruct Hfail as [? | [? | ?]]; congruence).
  all: try (match goal with H : get (Some ?j) "id" = _ |- _ =>
              destruct Hfail as [? | [? | ?]]; simplify_eq; simpl in *; congruence end).
Qed.

(** The theorem where a key is configured and the mirror API cannot
    be reached: one call is attempted, and the caller still gets the
    success response, with a null [openaiFileId]. *)
Lemma mirror_attempts_witness :
  mirror_calls (calls (upload_file Examples.mirror_down (Examples.upload_notes "alice")
                         (Examples.store None))) = [Examples.notes] /\
  result (upload_file Examples.mirror_down (Examples.upload_notes "alice")
            (Examples.store None))
    = Normal {| status := 200; headers := json_headers;
                response_body :=
                  UploadBody Examples.notes_row null "File uploaded successfully" |}.
Proof.
  destruct (mirror_attempts Examples.mirror_down (Examples.upload_notes "alice")
              (Examples.store None) Examples.notes_row)
    as (form & file & fid & Hform & Hfile & Hone & _ & Hres & _ & Hfail).
  { right; left; reflexivity. }
  injection Hform as <-. injection Hfile as <-. split.
  - apply (Hone "sk-test" eq_refl); [discriminate | simpl; lia].
  - rewrite Hres, (Hfail "sk-test" eq_refl I). reflexivity.
Defined.

(** C8. When the storage write is accepted and the insert of the File
    row is not, the relay responds with the error envelope for the failed
    metadata save; these two are the only calls it made, so nothing
    removes the object, which stays in the bucket under the key the
    storage service filed it under, and the tables are as before. *)
Theorem metadata_failure_leaves_object env req w path file row :
  In (CallStorageUpload path file true) (calls (upload_file env req w)) ->
  In (CallFilesInsert row false) (calls (upload_file env req w)) ->
  result (upload_file env req w)
    = Normal {| status := 500; headers := json_headers;
                response_body := ErrorBody (Error "Failed to save file metadata") |} /\
  calls (upload_file env req w)
    = [CallStorageUpload path file true; CallFilesInsert row false] /\
  bucket (final (upload_file env req w)) = <[object_key env path := file]> (bucket w) /\
  bucket (final (upload_file env req w)) !! object_key env path = Some file /\
  bucket w !! object_key env path = None /\
  db (final (upload_file env req w)) = db w.
Proof.
  revert path file row.
  change (wp (upload_file env req) w (fun c w' evs =>
    forall path file row,
      In (CallStorageUpload path file true) evs ->
      In (CallFilesInsert row false) evs ->
      c = Normal (error_envelope (Error "Failed to save file metadata")) /\
      evs = [CallStorageUpload path file true; CallFilesInsert row false] /\
      bucket w' = <[object_key env path := file]> (bucket w) /\
      bucket w' !! object_key env path = Some file /\
      bucket w !! object_key env path = None /\
      db w' = db w)).
  unfold upload_file, handle, mirror. wp_run.
  all: intros path file row Hup Hins; in_cases Hup; in_cases Hins; simplify_eq.
  split_and!; try done.
  - apply lookup_insert_eq.
  - match goal with
    | H : _ && bool_decide (_ = None) = true |- _ =>
        apply andb_true_iff in H as [_ H]; exact (bool_decide_eq_true_1 _ H)
    end.
Qed.

(** The theorem where the store refuses the insert into [files]. *)
Lemma metadata_failure_leaves_object_witness :
  result (upload_file Examples.refusing_inserts (Examples.upload_notes "alice")
            (Examples.store None))
    = Normal {| status := 500; headers := json_headers;
                response_body := ErrorBody (Error "Failed to save file metadata") |} /\
  bucket (final (upload_file Examples.refusing_inserts (Examples.upload_notes "alice")
                   (Examples.store None)))
    !! "alice/3f0c2a1e-7b4d-4c8e-9a51-0d6e2b9f4c77.txt" = Some Examples.notes /\
  files (db (final (upload_file Examples.refusing_inserts (Examples.upload_notes "alice")
                      (Examples.store None)))) = [].
Proof.
  destruct (metadata_failure_leaves_object Examples.refusing_inserts
              (Examples.upload_notes "alice") (Examples.store None)
              "alice/3f0c2a1e-7b4d-4c8e-9a51-0d6e2b9f4c77.txt" Examples.notes
              Examples.notes_row)
    as (Hres & _ & _ & Hobj & _ & Hdb).
  - vm_compute. left; reflexivity.
  - vm_compute. right; left; reflexivity.
  - split_and!; [exact Hres | exact Hobj | rewrite Hdb; reflexivity].
Defined.

End UploadRelay.

(** ** The relays do not look at ownership *)

Section Ownership.

Lemma respects_ret {A} R (a : A) : respects R (ret a).
Proof. intros w1 w2 HR. done. Qed.

Lemma respects_throw {A} R e : respects R (@throw A e).
Proof. intros w1 w2 HR. done. Qed.

Lemma respects_lift {A} R (c : completion A) : respects R (lift c).
Proof. intros w1 w2 HR. done. Qed.

Lemma respects_await {A} R (x : option A) err : respects R (await x err).
Proof. destruct x; [apply respects_ret | apply respects_throw]. Qed.

Lemma respects_bind {A B} R (m : M A) (k : A -> M B) :
  respects R m -> (forall a, respects R (k a)) -> respects R (bind m k).
Proof.
  intros Hm Hk w1 w2 HR. unfold bind.
  destruct (Hm w1 w2 HR) as (Hres & Hcalls & Hfin). rewrite <- Hres, <- Hcalls.
  destruct (result (m w1)) as [a|e]; simpl; [|done].
  destruct (Hk a _ _ Hfin) as (Hres' & Hcalls' & Hfin'). by rewrite Hres', Hcalls'.
Qed.

Lemma respects_try_catch {A} R (m : M A) (h : exn -> M A) :
  respects R m -> (forall e, respects R (h e)) -> respects R (try_catch m h).
Proof.
  intros Hm Hh w1 w2 HR. unfold try_catch.
  destruct (Hm w1 w2 HR) as (Hres & Hcalls & Hfin). rewrite <- Hres.
  destruct (result (m w1)) as [a|e] eqn:E; simpl.
  - by rewrite E.
  - destruct (Hh e _ _ Hfin) as (Hres' & Hcalls' & Hfin'). by rewrite Hres', Hcalls', Hcalls.
Qed.




Variable env : environment.







End Ownership.











(** ** The messages table *)

Section MessagesTable.

Lemma with_messages_same (d : database) : with_messages d (messages d) = d.
Proof. destruct d; reflexivity. Qed.

Lemma no_update_policy (uid : option string) (d : database) (r : message_row) :
  permitted uid d UPDATE (MessageRow r) = false.
Proof. reflexivity. Qed.

Lemma no_delete_policy (uid : option string) (d : database) (r : message_row) :
  permitted uid d DELETE (MessageRow r) = false.
Proof. reflexivity. Qed.

Lemma mapM_unchanged {A} (f : A -> option A) (l : list A) :
  (forall x, f x = Some x) -> mapM f l = Some l.
Proof.
  intros Hf. induction l as [|x l IH]; [reflexivity|].
  simpl. rewrite Hf. simpl. rewrite IH. reflexivity.
Qed.

Lemma filter_keeps_all {A} (f : A -> bool) (l : list A) :
  (forall x, f x = true) -> List.filter f l = l.
Proof.
  intros Hf. induction l as [|x l IH]; [reflexivity|].
  simpl. rewrite Hf, IH. reflexivity.
Qed.

Lemma filter_sublist {A} (f : A -> bool) (l : list A) : sublist (List.filter f l) l.
Proof.
  induction l as [|x l IH]; simpl; [constructor|].
  destruct (f x); by constructor.
Qed.

Lemma update_changes_nothing uid where_ set d :
  Client.update_messages uid where_ set d = Some d.
Proof.
  unfold Client.update_messages. rewrite mapM_unchanged.
  - simpl. by rewrite with_messages_same.
  - intros r. unfold Client.update_row.
    by rewrite no_update_policy, andb_false_r.
Qed.

Lemma delete_removes_nothing uid where_ d :
  Client.delete_messages uid where_ d = d.
Proof.
  unfold Client.delete_messages. rewrite filter_keeps_all.
  - apply with_messages_same.
  - intros r. by rewrite no_delete_policy, andb_false_r.
Qed.

Lemma role_check_true (role : string) :
  role_check role = true -> role = "user" \/ role = "assistant".
Proof.
  unfold role_check. rewrite orb_true_iff, !String.eqb_eq. tauto.
Qed.

Lemma insert_appends uid r d d' :
  Client.insert_message uid r d = Some d' ->
  messages d' = (messages d ++ [r])%list /\ (m_role r = "user" \/ m_role r = "assistant").
Proof.
  unfold Client.insert_message.
  destruct (permitted uid d INSERT (MessageRow r)); [|discriminate]. simpl.
  destruct (message_constraints d r) eqn:Hc; [|discriminate].
  intros [= <-]. split; [reflexivity|].
  unfold message_constraints in Hc. apply andb_true_iff in Hc as [_ Hc].
  exact (role_check_true _ Hc).
Qed.

Lemma completion_appends_assistant env req w :
  wp (ChatCompletion.chat_completion env req) w (fun _ w' _ =>
    exists new, messages (db w') = (messages (db w) ++ new)%list /\
                Forall (fun m => m_role m = "assistant") new).
Proof.
  unfold ChatCompletion.chat_completion, ChatCompletion.handle. wp_run.
  all: try (exists []; rewrite app_nil_r; split; [reflexivity | constructor]).
  all: match goal with
       | H : message_to_store _ _ _ _ _ = Some ?r |- _ =>
           apply message_to_store_Some in H; destruct H as (chat & text & _ & _ & -> & _)
       end.
  all: eexists [_]; split; [reflexivity | by repeat constructor].
Qed.

Lemma upload_keeps_messages env req w :
  wp (UploadFile.upload_file env req) w (fun _ w' _ => messages (db w') = messages (db w)).
Proof.
  unfold UploadFile.upload_file, UploadFile.handle, UploadFile.mirror. wp_run.
  all: reflexivity.
Qed.

Lemma roles_ok_app (d d' : database) (new : list message_row) :
  messages d' = (messages d ++ new)%list ->
  Forall (fun m => m_role m = "user" \/ m_role m = "assistant") new ->
  roles_ok d -> roles_ok d'.
Proof.
  unfold roles_ok. intros -> Hnew Hd. apply Forall_app. by split.
Qed.

Lemma Forall_of_sublist {A} (P : A -> Prop) (l k : list A) :
  sublist l k -> Forall P k -> Forall P l.
Proof.
  induction 1 as [|x l k _ IH|x l k _ IH]; intros Hk.
  - constructor.
  - apply Forall_cons in Hk as [Hx Hk]. constructor; [exact Hx | exact (IH Hk)].
  - apply Forall_cons in Hk as [_ Hk]. exact (IH Hk).
Qed.

Lemma roles_ok_sublist (d d' : database) :
  sublist (messages d') (messages d) -> roles_ok d -> roles_ok d'.
Proof. unfold roles_ok. intros Hsub Hd. exact (Forall_of_sublist _ _ _ Hsub Hd). Qed.

(** How the table can change in one transition. *)
Lemma transition_messages d d' :
  transition d d' ->
  (exists new, messages d' = (messages d ++ new)%list /\
               Forall (fun m => m_role m = "user" \/ m_role m = "assistant") new) \/
  (is_cascade d d' /\ sublist (messages d') (messages d)).
Proof.
  destruct 1 as [uid r d d' H | uid c t d d' H | uid wh set d d' H | uid wh d
                | uid pid d | uid cid d | env req w | env req w].
  - apply insert_appends in H as [-> Hrole]. left. exists [r]. split; [done|].
    constructor; [exact Hrole | constructor].
  - apply insert_appends in H as [-> Hrole]. left. eexists [_]. split; [done|].
    constructor; [exact Hrole | constructor].
  - rewrite update_changes_nothing in H. injection H as <-.
    left. exists []. rewrite app_nil_r. split; [reflexivity | constructor].
  - rewrite delete_removes_nothing. left. exists []. rewrite app_nil_r.
    split; [reflexivity | constructor].
  - right. split; [left; eauto|].
    unfold Client.deleteProject.
    destruct (projects d !! pid) as [p|]; [|done].
    destruct (permitted uid d DELETE (ProjectRow p)); [|done].
    apply filter_sublist.
  - right. split; [right; eauto|].
    unfold Client.delete_chat.
    destruct (chats d !! cid) as [c|]; [|done].
    destruct (permitted uid d DELETE (ChatRow c)); [|done].
    apply filter_sublist.
  - left. destruct (completion_appends_assistant env req w) as (new & Hnew & Hroles).
    exists new. split; [exact Hnew|].
    eapply Forall_impl; [exact Hroles | simpl; tauto].
  - left. exists []. rewrite app_nil_r.
    split; [exact (upload_keeps_messages env req w) | constructor].
Qed.

Lemma transition_keeps_roles d d' : transition d d' -> roles_ok d -> roles_ok d'.
Proof.
  intros Ht Hd.
  destruct (transition_messages d d' Ht) as [(new & Hnew & Hroles) | [_ Hsub]].
  - exact (roles_ok_app d d' new Hnew Hroles Hd).
  - exact (roles_ok_sublist d d' Hsub Hd).
Qed.

(** C9, as amended. Message rows are role-constrained, and protected
    from statements on their table: the policies on [messages] are one
    for SELECT and one for INSERT, so an UPDATE or a DELETE on [messages]
    by any requester changes nothing; every insert, by a client or by the
    completion relay, stores a row whose role is [user] or [assistant],
    so that every row has one of the two roles after any transition, and
    in any store that grew from an empty table; and
    a transition either appends rows to the table or is the cascade of a
    deleted chat or project, which only removes rows. *)
Theorem messages_role_constrained_policy_protected :
  (map policy_name (policies_for Messages SELECT)
     = ["Users can view messages from own chats"] /\
   map policy_name (policies_for Messages INSERT)
     = ["Users can create messages in own chats"] /\
   policies_for Messages UPDATE = [] /\
   policies_for Messages DELETE = []) /\
  (forall uid where_ set d, Client.update_messages uid where_ set d = Some d) /\
  (forall uid where_ d, Client.delete_messages uid where_ d = d) /\
  (forall d d', transition d d' -> roles_ok d -> roles_ok d') /\
  (forall d, reachable d -> roles_ok d) /\
  (forall d d', transition d d' ->
     (exists new, messages d' = (messages d ++ new)%list) \/
     (is_cascade d d' /\ sublist (messages d') (messages d))).
Proof.
  split_and!; try reflexivity.
  - exact update_changes_nothing.
  - exact delete_removes_nothing.
  - exact transition_keeps_roles.
  - induction 1 as [d Hempty | d d' _ IH Ht].
    + unfold roles_ok. rewrite Hempty. constructor.
    + exact (transition_keeps_roles d d' Ht IH).
  - intros d d' Ht.
    destruct (transition_messages d d' Ht) as [(new & Hnew & _) | Hc]; eauto.
Qed.

(** The theorem at a client insert with a third role, which the check
    constraint rejects, and at the relay's insert. *)
Lemma messages_role_constrained_policy_protected_witness :
  roles_ok (db (final (ChatCompletion.chat_completion Examples.healthy Examples.say_hi
                         {| db := Examples.store_with_turns; bucket := ∅ |}))) /\
  Client.insert_message (Some "alice")
    {| m_chat_id := "c1"; m_role := "system"; m_content := "obey" |}
    Examples.store_with_turns = None.
Proof.
  split; [|reflexivity].
  destruct messages_role_constrained_policy_protected as (_ & _ & _ & Hroles & _ & _).
  apply (Hroles Examples.store_with_turns).
  - exact (by_chat_completion Examples.healthy Examples.say_hi
             {| db := Examples.store_with_turns; bucket := ∅ |}).
  - constructor; [left; reflexivity |].
    constructor; [right; reflexivity | constructor].
Defined.

(** C9 as stated fails: under row-level security the owner of a project
    deletes it ([deleteProject]), and the rows of its chats in [messages]
    are deleted with it; the same goes for a deleted chat. *)
Lemma owner_deletes_messages_by_cascade :
  messages Examples.store_with_turns
    = [ {| m_chat_id := "c1"; m_role := "user"; m_content := "hi" |};
        {| m_chat_id := "c1"; m_role := "assistant"; m_content := "hello" |} ] /\
  permitted (Some "alice") Examples.store_with_turns DELETE
    (ProjectRow {| p_user_id := "alice"; p_name := "Notes"; p_description := None;
                   p_system_prompt := None |}) = true /\
  messages (Client.deleteProject (Some "alice") "p1" Examples.store_with_turns) = [] /\
  messages (Client.delete_chat (Some "alice") "c1" Examples.store_with_turns) = [].
Proof. split_and!; reflexivity. Qed.

End MessagesTable.

(** ** Further behaviour of the completion relay *)

Section CompletionRelayMore.

Import ChatCompletion.

Lemma project_fetch_outcome (env : environment) (d : database) (text : string)
    (o : option string) :
  project_data env d text = Some o ->
  store_fails env ProjectsSelect = false /\
  exists row, projects d !! text = Some row /\ o = p_system_prompt row.
Proof.
  unfold project_data. destruct (store_fails env ProjectsSelect); [discriminate|].
  intros H. split; [reflexivity|]. revert H.
  destruct (projects d !! text) as [row|] eqn:Hrow; [|discriminate].
  intros [= <-]. eauto.
Qed.

(** X1. When the project cannot be fetched (the select fails, or no
    project has the id that the filter makes of the supplied
    [projectId]), the relay answers with the error envelope for the
    failed fetch; the select is the only call it made, so nothing is sent
    upstream and nothing is stored. *)
Theorem project_fetch_failure_stops_relay env req w id :
  In (CallProjectsSelect id) (calls (chat_completion env req w)) ->
  store_fails env ProjectsSelect = true \/
    (forall text, filter_text env id = Normal text -> projects (db w) !! text = None) ->
  result (chat_completion env req w)
    = Normal {| status := 500; headers := json_headers;
                response_body := ErrorBody (Error "Failed to fetch project details") |} /\
  calls (chat_completion env req w) = [CallProjectsSelect id] /\
  final (chat_completion env req w) = w.
Proof.
  revert id.
  change (wp (chat_completion env req) w (fun c w' evs =>
    forall id,
      In (CallProjectsSelect id) evs ->
      store_fails env ProjectsSelect = true \/
        (forall text, filter_text env id = Normal text -> projects (db w) !! text = None) ->
      c = Normal (error_envelope (Error "Failed to fetch project details")) /\
      evs = [CallProjectsSelect id] /\ w' = w)).
  unfold chat_completion, handle. wp_run.
  all: intros id Hin Hfail; in_cases Hin; simplify_eq.
  all: try done.
  all: exfalso;
    match goal with
    | H : project_data _ _ ?text = Some _, Ht : filter_text _ _ = Normal ?text |- _ =>
        apply project_fetch_outcome in H; destruct H as (Hup & row & Hrow & _);
        destruct Hfail as [Hdown | Hnone];
        [ congruence | rewrite (Hnone text Ht) in Hrow; discriminate ]
    end.
Qed.

(** The theorem at a request for a project that does not exist. *)
Lemma project_fetch_failure_stops_relay_witness :
  result (chat_completion Examples.healthy MoreExamples.ask_unknown_project (Examples.store None))
    = Normal {| status := 500; headers := json_headers;
                response_body := ErrorBody (Error "Failed to fetch project details") |} /\
  sent_upstream (calls (chat_completion Examples.healthy MoreExamples.ask_unknown_project
                          (Examples.store None))) = [].
Proof.
  destruct (project_fetch_failure_stops_relay Examples.healthy MoreExamples.ask_unknown_project
              (Examples.store None) (Some (JStr "p9")))
    as (Hres & Hcalls & _).
  - left; reflexivity.
  - right. intros text [= <-]. reflexivity.
  - rewrite Hres, Hcalls. split; reflexivity.
Defined.

(** X2. Without an API key (unset or empty) the completion relay never
    calls the completion API, never inserts a message and leaves the
    store as it was; no request gets a reply. *)
Theorem completion_needs_api_key env req w :
  OPENAI_API_KEY env = None \/ OPENAI_API_KEY env = Some "" ->
  sent_upstream (calls (chat_completion env req w)) = [] /\
  message_inserts (calls (chat_completion env req w)) = [] /\
  final (chat_completion env req w) = w /\
  (forall r message usage,
     result (chat_completion env req w) = Normal r ->
     response_body r <> CompletionBody message usage) /\
  (forall id history,
     In (CallProjectsSelect id) (calls (chat_completion env req w)) ->
     ~ (store_fails env ProjectsSelect = true \/
        (forall pid, id = Some (JStr pid) -> projects (db w) !! pid = None)) ->
     spread (supplied req "messages") = Normal history ->
     result (chat_completion env req w)
       = Normal {| status := 500; headers := json_headers;
                   response_body := ErrorBody (Error "OpenAI API key not configured") |}).
Proof.
  intros Hkey.
  change (wp (chat_completion env req) w (fun c w' evs =>
    sent_upstream evs = [] /\ message_inserts evs = [] /\ w' = w /\
    (forall r message usage, c = Normal r -> response_body r <> CompletionBody message usage) /\
    (forall id history,
       In (CallProjectsSelect id) evs ->
       ~ (store_fails env ProjectsSelect = true \/
          (forall pid, id = Some (JStr pid) -> projects (db w) !! pid = None)) ->
       spread (supplied req "messages") = Normal history ->
       c = Normal (error_envelope (Error "OpenAI API key not configured"))))).
  unfold chat_completion, handle. wp_run.
  all: try (exfalso; destruct Hkey as [Hkey | Hkey]; rewrite Hkey in *; simplify_eq;
            simpl in *; discriminate).
  all: split_and!; try done.
  all: try (intros r message usage [= <-]; discriminate).
  all: intros id history Hin Hfound Hspread; in_cases Hin; simplify_eq; try done.
  - exfalso.
    match goal with
    | Hb : json_body req = Some ?j, Hg : get (Some ?j) "messages" = Normal ?a,
      Hs : spread ?a = Throw _ |- _ =>
        rewrite (get_supplied req j _ _ Hb Hg) in Hs; congruence
    end.
  - exfalso. apply Hfound. clear Hfound.
    match goal with
    | H : project_data _ _ _ = None |- _ => revert H
    end.
    unfold project_data.
    destruct (store_fails env ProjectsSelect); [by left|]. intros H. right.
    intros pid ->.
    match goal with
    | Ht : filter_text _ _ = Normal _ |- _ =>
        rewrite filter_text_string in Ht; injection Ht as <-
    end.
    by destruct (projects (db w) !! pid).
Qed.

(** The theorem in an environment without a key. *)
Lemma completion_needs_api_key_witness :
  result (chat_completion Examples.without_key Examples.say_hi (Examples.store None))
    = Normal {| status := 500; headers := json_headers;
                response_body := ErrorBody (Error "OpenAI API key not configured") |} /\
  sent_upstream (calls (chat_completion Examples.without_key Examples.say_hi
                          (Examples.store None))) = [].
Proof.
  destruct (completion_needs_api_key Examples.without_key Examples.say_hi
              (Examples.store None) (or_introl eq_refl))
    as (Hnone & _ & _ & _ & Herr).
  split; [|exact Hnone].
  apply (Herr (Some (JStr "p1")) [Examples.hi]).
  - left; reflexivity.
  - intros [Hdown | Hmissing]; [discriminate Hdown|].
    specialize (Hmissing "p1" eq_refl). discriminate Hmissing.
  - reflexivity.
Defined.

(** X3. Every call to the completion API is made with the configured,
    non-empty key, the model [gpt-4o-mini], temperature 0.7 and at most
    2000 output tokens; it is made at most once per request, right after
    the project was selected. *)
Theorem upstream_call_parameters env req w key body :
  In (CallChatCompletions key body) (calls (chat_completion env req w)) ->
  OPENAI_API_KEY env = Some key /\ key <> "" /\
  model body = "gpt-4o-mini" /\
  temperature body = (7, 10)%Z /\
  max_tokens body = 2000%Z /\
  exists id later,
    calls (chat_completion env req w)
      = CallProjectsSelect id :: CallChatCompletions key body :: later /\
    sent_upstream later = [].
Proof.
  revert key body.
  change (wp (chat_completion env req) w (fun c w' evs =>
    forall key body,
      In (CallChatCompletions key body) evs ->
      OPENAI_API_KEY env = Some key /\ key <> "" /\
      model body = "gpt-4o-mini" /\
      temperature body = (7, 10)%Z /\
      max_tokens body = 2000%Z /\
      exists id later,
        evs = CallProjectsSelect id :: CallChatCompletions key body :: later /\
        sent_upstream later = [])).
  unfold chat_completion, handle. wp_run.
  all: intros key body Hin; in_cases Hin; simplify_eq.
  all: match goal with H : (_ =? "") = false |- _ => apply String.eqb_neq in H end.
  all: split_and!; try done.
  all: eexists _, _; split; reflexivity.
Qed.

Lemma upstream_call_parameters_witness :
  In (CallChatCompletions "sk-test" (Examples.call_with_prompt default_system_prompt))
     (calls (chat_completion Examples.healthy Examples.say_hi (Examples.store None))) /\
  model (Examples.call_with_prompt default_system_prompt) = "gpt-4o-mini".
Proof.
  assert (Hin : In (CallChatCompletions "sk-test"
                      (Examples.call_with_prompt default_system_prompt))
                   (calls (chat_completion Examples.healthy Examples.say_hi
                             (Examples.store None))))
    by (right; left; reflexivity).
  split; [exact Hin|].
  exact (proj1 (proj2 (proj2 (upstream_call_parameters Examples.healthy Examples.say_hi
                                (Examples.store None) _ _ Hin)))).
Defined.

(** X4. The relay only ever tries to store what the completion API
    returned: every insert into [messages] is made with role
    [assistant], after a 2xx answer, and with the value found at
    [choices[0].message.content] of that answer as content. *)
Theorem stored_reply_comes_from_upstream env req w chat_id role content accepted :
  In (CallMessagesInsert chat_id role content accepted) (calls (chat_completion env req w)) ->
  role = "assistant" /\
  chat_id = supplied req "chatId" /\
  exists key body answer data,
    In (CallChatCompletions key body) (calls (chat_completion env req w)) /\
    chat_completions env key body = Some answer /\
    (200 <= http_status answer <= 299)%N /\
    http_json answer = Some data /\
    reply_content data = Normal content.
Proof.
  revert chat_id role content accepted.
  change (wp (chat_completion env req) w (fun c w' evs =>
    forall chat_id role content accepted,
      In (CallMessagesInsert chat_id role content accepted) evs ->
      role = "assistant" /\
      chat_id = supplied req "chatId" /\
      exists key body answer data,
        In (CallChatCompletions key body) evs /\
        chat_completions env key body = Some answer /\
        (200 <= http_status answer <= 299)%N /\
        http_json answer = Some data /\
        reply_content data = Normal content)).
  unfold chat_completion, handle. wp_run.
  all: intros chat_id role content accepted Hin; in_cases Hin; simplify_eq.
  all: split_and!; [done | eauto using get_supplied |].
  all: match goal with
       | H : match chat_completions ?e ?k ?b with _ => _ end = Normal ?r |- _ =>
           destruct (chat_completions e k b) as [answer|] eqn:Hanswer; simplify_eq
       end.
  all: match goal with
       | H : negb (ok ?r) = false |- _ =>
           apply negb_false_iff in H; unfold ok in H;
           apply andb_true_iff in H as [Hlo Hhi];
           apply N.leb_le in Hlo; apply N.leb_le in Hhi
       end.
  all: eexists _, _, _, _; split_and!; [right; left; reflexivity | eassumption | done.. |].
  all: unfold reply_content;
    repeat match goal with H : _ = Normal _ |- _ => rewrite H; clear H end; reflexivity.
Qed.

Lemma stored_reply_comes_from_upstream_witness :
  reply_content (Examples.answer (JStr "hello")) = Normal (Some (JStr "hello")) /\
  exists key body,
    chat_completions Examples.healthy key body = Some Examples.says_hello.
Proof.
  destruct (stored_reply_comes_from_upstream Examples.healthy Examples.say_hi
              (Examples.store None) (Some (JStr "c1")) "assistant" (Some (JStr "hello")) true)
    as (_ & _ & key & body & answer & data & _ & Hanswer & _ & Hdata & Hcontent).
  { right; right; left; reflexivity. }
  split.
  - simpl in Hanswer. injection Hanswer as <-. simpl in Hdata. injection Hdata as <-.
    exact Hcontent.
  - exists key, body. reflexivity.
Defined.

Lemma completion_response_shape env req w :
  exists r,
    result (chat_completion env req w) = Normal r /\
    (status r = 200%N \/ status r = 500%N) /\
    (forall h, In h corsHeaders -> In h (headers r)) /\
    (status r = 500%N <-> exists error, response_body r = ErrorBody error) /\
    (ChatCompletion.method req = "OPTIONS" <-> response_body r = NoBody).
Proof.
  change (wp (chat_completion env req) w (fun c w' evs =>
    exists r,
      c = Normal r /\
      (status r = 200%N \/ status r = 500%N) /\
      (forall h, In h corsHeaders -> In h (headers r)) /\
      (status r = 500%N <-> exists error, response_body r = ErrorBody error) /\
      (ChatCompletion.method req = "OPTIONS" <-> response_body r = NoBody))).
  unfold chat_completion, handle.
  destruct (String.eqb_spec (method req) "OPTIONS") as [Hm | Hm].
  { apply wp_ret. eexists; split_and!; [done | by left | done | | done].
    split; [discriminate | intros [e Hbody]; discriminate Hbody]. }
  wp_run.
  all: eexists; split; [reflexivity|]; simpl; split_and!.
  all: first [ by left
             | by right
             | by (intros h; tauto)
             | by (split; [eauto | done])
             | by (split; [discriminate | intros [? [=]]])
             | by (split; [done | discriminate]) ].
Qed.

Lemma completion_writes_messages_only env req w :
  projects (db (final (chat_completion env req w))) = projects (db w) /\
  chats (db (final (chat_completion env req w))) = chats (db w) /\
  files (db (final (chat_completion env req w))) = files (db w) /\
  profiles (db (final (chat_completion env req w))) = profiles (db w) /\
  bucket (final (chat_completion env req w)) = bucket w /\
  exists new,
    messages (db (final (chat_completion env req w))) = (messages (db w) ++ new)%list /\
    length new = length (filter (fun a => a = true)
                           (message_inserts (calls (chat_completion env req w)))).
Proof.
  change (wp (chat_completion env req) w (fun c w' evs =>
    projects (db w') = projects (db w) /\
    chats (db w') = chats (db w) /\
    files (db w') = files (db w) /\
    profiles (db w') = profiles (db w) /\
    bucket w' = bucket w /\
    exists new,
      messages (db w') = (messages (db w) ++ new)%list /\
      length new = length (filter (fun a => a = true) (message_inserts evs)))).
  unfold chat_completion, handle. wp_run.
  all: split_and!; try reflexivity.
  all: first [ by (exists []; rewrite app_nil_r) | by eexists [_] ].
Qed.

Lemma parents_projects_select env (id : value) :
  respects same_parents (projects_select env id).
Proof.
  intros w1 w2 [Hp Hc]. unfold projects_select, project_data.
  destruct (filter_text env id); simpl; [|done]. by rewrite Hp.
Qed.

Lemma parents_messages_insert env (chat_id : value) (role : string) (content : value) :
  respects same_parents (messages_insert env chat_id role content).
Proof.
  intros w1 w2 [Hp Hc]. unfold messages_insert.
  assert (message_to_store env (db w1) chat_id role content
          = message_to_store env (db w2) chat_id role content) as ->.
  { unfold message_to_store, message_constraints. by rewrite Hc. }
  destruct (message_to_store env (db w2) chat_id role content); simpl; done.
Qed.

Lemma parents_fetch_chat_completions env key body :
  respects same_parents (fetch_chat_completions env key body).
Proof. intros w1 w2 HR. done. Qed.

Lemma chat_completion_respects_parents env req :
  respects same_parents (chat_completion env req).
Proof.
  unfold chat_completion, handle.
  repeat lazymatch goal with
         | |- respects _ (bind _ _) => apply respects_bind; [| intros ?]
         | |- respects _ (try_catch _ _) => apply respects_try_catch; [| intros ?]
         | |- respects _ (ret _) => apply respects_ret
         | |- respects _ (throw _) => apply respects_throw
         | |- respects _ (lift _) => apply respects_lift
         | |- respects _ (await _ _) => apply respects_await
         | |- respects _ (projects_select _ _) => apply parents_projects_select
         | |- respects _ (messages_insert _ _ _ _) => apply parents_messages_insert
         | |- respects _ (fetch_chat_completions _ _ _) => apply parents_fetch_chat_completions
         | |- respects _ (if ?b then _ else _) => destruct b
         | |- respects _ (match ?x with _ => _ end) => destruct x
         end.
Qed.

Lemma reply_appends_row env req w :
  wp (chat_completion env req) w (fun c w' evs =>
    forall r message usage,
      c = Normal r -> response_body r = CompletionBody message usage ->
      exists chat text,
        column_text env (supplied req "chatId") = Some chat /\
        column_text env message = Some text /\
        messages (db w')
          = (messages (db w)
               ++ [{| m_chat_id := chat; m_role := "assistant"; m_content := text |}])%list).
Proof.
  unfold chat_completion, handle. wp_run.
  all: intros r message usage [= <-] Hbody; try discriminate Hbody.
  match goal with
  | H : message_to_store _ _ _ _ _ = Some _ |- _ =>
      apply message_to_store_Some in H; destruct H as (chat & text & Hchat & Htext & -> & _)
  end.
  injection Hbody as <- <-. exists chat, text. split_and!; try done.
  match goal with
  | Hb : json_body req = Some ?j, Hg : get (Some ?j) "chatId" = Normal ?a |- _ =>
      rewrite <- (get_supplied req j _ _ Hb Hg); exact Hchat
  end.
Qed.

(** X5. The relay has no protection against retries: when a request got
    its reply, sending the same request again (same environment) gets
    the same response and stores the same assistant row a second time. *)
Theorem retry_duplicates_reply env req w r message usage :
  result (chat_completion env req w) = Normal r ->
  response_body r = CompletionBody message usage ->
  result (chat_completion env req (final (chat_completion env req w))) = Normal r /\
  exists row,
    messages (db (final (chat_completion env req w))) = (messages (db w) ++ [row])%list /\
    messages (db (final (chat_completion env req (final (chat_completion env req w)))))
      = (messages (db w) ++ [row; row])%list.
Proof.
  intros Hres Hbody.
  assert (Hsame : same_parents w (final (chat_completion env req w))).
  { destruct (completion_writes_messages_only env req w) as (Hp & Hc & _). by split. }
  destruct (chat_completion_respects_parents env req _ _ Hsame) as (Hres' & _ & _).
  rewrite Hres in Hres'. symmetry in Hres'. split; [exact Hres'|].
  destruct (reply_appends_row env req w r message usage Hres Hbody)
    as (chat & text & Hchat & Hmsg & Hrows).
  destruct (reply_appends_row env req _ r message usage Hres' Hbody)
    as (chat' & text' & Hchat' & Hmsg' & Hrows').
  rewrite Hchat in Hchat'. injection Hchat' as <-.
  rewrite Hmsg in Hmsg'. injection Hmsg' as <-.
  eexists. split; [exact Hrows|].
  rewrite Hrows', Hrows, <- app_assoc. reflexivity.
Qed.

Lemma retry_duplicates_reply_witness :
  messages (db (final (chat_completion Examples.healthy Examples.say_hi
                         (final (chat_completion Examples.healthy Examples.say_hi
                                   (Examples.store None))))))
  = [ {| m_chat_id := "c1"; m_role := "assistant"; m_content := "hello" |};
      {| m_chat_id := "c1"; m_role := "assistant"; m_content := "hello" |} ].
Proof.
  destruct (retry_duplicates_reply Examples.healthy Examples.say_hi (Examples.store None)
              _ _ _ eq_refl eq_refl)
    as (_ & row & Hone & Htwo).
  simpl in Hone. injection Hone as <-. exact Htwo.
Defined.

End CompletionRelayMore.

(** ** Further behaviour of the upload relay *)

Section UploadRelayMore.

Import UploadFile.

Lemma split_dot_nonempty (s : string) : split_dot s <> [].
Proof.
  induction s as [|c s IH]; simpl; [discriminate|].
  destruct (Ascii.eqb c "."); [discriminate|].
  destruct (split_dot s); [contradiction | discriminate].
Qed.

Lemma split_dot_no_dots (s : string) :
  Forall (fun x => has_dot x = false) (split_dot s).
Proof.
  induction s as [|c s IH]; simpl; [by repeat constructor|].
  destruct (Ascii.eqb c ".") eqn:Hc; [by constructor|].
  destruct (split_dot s) as [|x xs]; [by repeat (constructor; simpl; rewrite ?Hc)|].
  apply Forall_cons in IH as [Hx Hxs]. constructor; [|exact Hxs].
  simpl. by rewrite Hc, Hx.
Qed.

(** [s.split('.').join('.')] is [s]. *)
Lemma join_split_dot (s : string) : join_dot (split_dot s) = s.
Proof.
  induction s as [|c s IH]; [reflexivity|].
  simpl split_dot. destruct (Ascii.eqb_spec c ".") as [-> | Hc].
  - destruct (split_dot s) as [|x xs] eqn:Hs.
    { exfalso. exact (split_dot_nonempty _ Hs). }
    change (join_dot ("" :: x :: xs)) with ("" +:+ "." +:+ join_dot (x :: xs)).
    rewrite IH. reflexivity.
  - destruct (split_dot s) as [|x xs] eqn:Hs.
    { exfalso. exact (split_dot_nonempty _ Hs). }
    destruct xs as [|y ys].
    + simpl in IH. simpl. by rewrite IH.
    + change (join_dot (String c x :: y :: ys))
        with (String c (x +:+ "." +:+ join_dot (y :: ys))).
      change (join_dot (x :: y :: ys)) with (x +:+ "." +:+ join_dot (y :: ys)) in IH.
      by rewrite IH.
Qed.

Lemma append_assoc (a b c : string) : (a +:+ b) +:+ c = a +:+ b +:+ c.
Proof.
  induction a as [|x a IH]; [reflexivity|].
  change (String x ((a +:+ b) +:+ c) = String x (a +:+ b +:+ c)). by rewrite IH.
Qed.

Lemma join_dot_snoc (init : list string) (x : string) :
  join_dot (init ++ [x])
  = match init with
    | [] => x
    | _ :: _ => join_dot init +:+ "." +:+ x
    end.
Proof.
  induction init as [|y init IH]; [reflexivity|].
  destruct init as [|z init].
  - reflexivity.
  - change (join_dot ((y :: z :: init) ++ [x]))
      with (y +:+ "." +:+ join_dot ((z :: init) ++ [x])).
    rewrite IH.
    change (join_dot (y :: z :: init)) with (y +:+ "." +:+ join_dot (z :: init)).
    by rewrite !append_assoc.
Qed.

Lemma has_dot_append (a b : string) : has_dot (a +:+ "." +:+ b) = true.
Proof.
  induction a as [|c a IH]; [reflexivity|].
  simpl. rewrite IH. apply orb_true_r.
Qed.

(** X10. The extension put into the storage key is the part of the file
    name after its last dot: it contains no dot itself, and the name is
    either that extension alone (a name without a dot is taken whole) or
    some stem, a dot, and the extension. *)
Theorem extension_is_last_dot_part (file : File) :
  has_dot (fileExt file) = false /\
  (file_name file = fileExt file \/
   exists stem, file_name file = stem +:+ "." +:+ fileExt file) /\
  (has_dot (file_name file) = false <-> file_name file = fileExt file).
Proof.
  unfold fileExt. generalize (file_name file). intros name.
  assert (Hlast : exists init, split_dot name = (init ++ [pop (split_dot name)])%list).
  { exists (removelast (split_dot name)).
    apply app_removelast_last, split_dot_nonempty. }
  destruct Hlast as [init Hinit].
  assert (Hext : has_dot (pop (split_dot name)) = false).
  { pose proof (split_dot_no_dots name) as Hall. rewrite Hinit in Hall.
    apply Forall_app in Hall as [_ Hall]. by apply Forall_cons in Hall as [Hall _]. }
  assert (Hname : name = match init with
                         | [] => pop (split_dot name)
                         | _ :: _ => join_dot init +:+ "." +:+ pop (split_dot name)
                         end).
  { rewrite <- join_dot_snoc, <- Hinit. symmetry. apply join_split_dot. }
  split_and!.
  - exact Hext.
  - destruct init; [by left | right; eauto].
  - split.
    + intros Hno. destruct init; [exact Hname|].
      rewrite Hname, has_dot_append in Hno. discriminate.
    + intros Heq. rewrite Heq. exact Hext.
Qed.

(** X8. When the storage service refuses the write, the relay answers
    with the error envelope for the failed storage write, having made no
    other call: no File row, no mirror call, no second attempt, and the
    store is untouched. *)
Theorem storage_failure_stops_upload env req w path file :
  In (CallStorageUpload path file false) (calls (upload_file env req w)) ->
  result (upload_file env req w)
    = Normal {| status := 500; headers := json_headers;
                response_body := ErrorBody (Error "Failed to upload file to storage") |} /\
  calls (upload_file env req w) = [CallStorageUpload path file false] /\
  final (upload_file env req w) = w.
Proof.
  revert path file.
  change (wp (upload_file env req) w (fun c w' evs =>
    forall path file,
      In (CallStorageUpload path file false) evs ->
      c = Normal (error_envelope (Error "Failed to upload file to storage")) /\
      evs = [CallStorageUpload path file false] /\ w' = w)).
  unfold upload_file, handle, mirror. wp_run.
  all: intros path file Hin; in_cases Hin; simplify_eq.
  done.
Qed.

(** The theorem where an object is already stored under the key. *)
Lemma storage_failure_stops_upload_witness :
  result (upload_file Examples.healthy (Examples.upload_notes "alice")
            MoreExamples.store_with_object)
    = Normal {| status := 500; headers := json_headers;
                response_body := ErrorBody (Error "Failed to upload file to storage") |} /\
  final (upload_file Examples.healthy (Examples.upload_notes "alice")
           MoreExamples.store_with_object) = MoreExamples.store_with_object.
Proof.
  destruct (storage_failure_stops_upload Examples.healthy (Examples.upload_notes "alice")
              MoreExamples.store_with_object
              "alice/3f0c2a1e-7b4d-4c8e-9a51-0d6e2b9f4c77.txt" Examples.notes)
    as (Hres & _ & Hfin).
  { vm_compute. left; reflexivity. }
  by rewrite Hres, Hfin.
Defined.

(** X9. The mirror API is only called under the conditions of the
    guard: with the configured, non-empty key, for the uploaded file,
    when that file has at most 20 MiB, and after its File row was
    inserted; and it is called at most once. *)
Theorem mirror_call_guarded env req w key file :
  In (CallOpenAIFiles key file) (calls (upload_file env req w)) ->
  OPENAI_API_KEY env = Some key /\ key <> "" /\
  (Z.of_nat (length (file_bytes file)) <= 20 * 1024 * 1024)%Z /\
  mirror_calls (calls (upload_file env req w)) = [file] /\
  exists form path row,
    formData req = Some form /\ form_file form = Some file /\
    calls (upload_file env req w)
      = [CallStorageUpload path file true; CallFilesInsert row true;
         CallOpenAIFiles key file].
Proof.
  revert key file.
  change (wp (upload_file env req) w (fun c w' evs =>
    forall key file,
      In (CallOpenAIFiles key file) evs ->
      OPENAI_API_KEY env = Some key /\ key <> "" /\
      (file_size file <= mirror_limit)%Z /\
      mirror_calls evs = [file] /\
      exists form path row,
        formData req = Some form /\ form_file form = Some file /\
        evs = [CallStorageUpload path file true; CallFilesInsert row true;
               CallOpenAIFiles key file])).
  unfold upload_file, handle, mirror. wp_run.
  all: intros key file Hin; in_cases Hin; simplify_eq.
  all: match goal with
       | H : negb (_ =? "") && (_ <=? _)%Z = true |- _ =>
           apply andb_true_iff in H as [Hkey Hsize];
           apply negb_true_iff, String.eqb_neq in Hkey; apply Z.leb_le in Hsize
       end.
  all: split_and!; try done.
  all: eexists _, _, _; split_and!; try done.
Qed.

Lemma mirror_call_guarded_witness :
  In (CallOpenAIFiles "sk-test" Examples.notes)
     (calls (upload_file Examples.healthy (Examples.upload_notes "alice")
               (Examples.store None))) /\
  mirror_calls (calls (upload_file Examples.healthy (Examples.upload_notes "alice")
                         (Examples.store None))) = [Examples.notes].
Proof.
  assert (Hin : In (CallOpenAIFiles "sk-test" Examples.notes)
                   (calls (upload_file Examples.healthy (Examples.upload_notes "alice")
                             (Examples.store None))))
    by (vm_compute; right; right; left; reflexivity).
  split; [exact Hin|].
  exact (proj1 (proj2 (proj2 (proj2 (mirror_call_guarded Examples.healthy
                                       (Examples.upload_notes "alice")
                                       (Examples.store None) _ _ Hin))))).
Defined.

(** X11. When the mirror API answers with a 2xx status and a JSON
    object, the success response carries what that object holds under
    [id] as [openaiFileId] (nothing when there is no such property). *)
Theorem mirror_identifier_returned env req w key file answer fields :
  In (CallOpenAIFiles key file) (calls (upload_file env req w)) ->
  openai_files env key file = Some answer ->
  (200 <= http_status answer <= 299)%N ->
  http_json answer = Some (JObj fields) ->
  exists row,
    result (upload_file env req w)
      = Normal {| status := 200; headers := json_headers;
                  response_body :=
                    UploadBody row (own_property "id" fields)
                      "File uploaded successfully" |} /\
    In row (files (db (final (upload_file env req w)))).
Proof.
  intros Hin Hanswer Hok Hjson.
  assert (Hok' : ok answer = true).
  { unfold ok. apply andb_true_iff. split; apply N.leb_le; lia. }
  clear Hok. revert key file answer fields Hin Hanswer Hok' Hjson.
  change (wp (upload_file env req) w (fun c w' evs =>
    forall key file answer fields,
      In (CallOpenAIFiles key file) evs ->
      openai_files env key file = Some answer ->
      ok answer = true ->
      http_json answer = Some (JObj fields) ->
      exists row,
        c = Normal {| status := 200; headers := json_headers;
                      response_body :=
                        UploadBody row (own_property "id" fields)
                          "File uploaded successfully" |} /\
        In row (files (db w')))).
  unfold upload_file, handle, mirror. wp_run.
  all: intros key file answer fields Hin Hanswer Hok Hjson; in_cases Hin; simplify_eq.
  all: rewrite Hanswer in *; simplify_eq.
  all: try congruence.
  all: simpl in *; simplify_eq.
  all: eexists; split; [reflexivity|].
  all: apply in_or_app; right; by left.
Qed.

Lemma mirror_identifier_returned_witness :
  exists row,
    result (upload_file Examples.healthy (Examples.upload_notes "alice")
              (Examples.store None))
    = Normal {| status := 200; headers := json_headers;
                response_body :=
                  UploadBody row (Some (JStr "file-1")) "File uploaded successfully" |}.
Proof.
  destruct (mirror_identifier_returned Examples.healthy (Examples.upload_notes "alice")
              (Examples.store None) "sk-test" Examples.notes Examples.mirrored
              [("id", JStr "file-1")])
    as (row & Hres & _).
  - vm_compute. right; right; left; reflexivity.
  - reflexivity.
  - simpl. lia.
  - reflexivity.
  - exists row. exact Hres.
Defined.

Lemma upload_response_shape env req w :
  exists r,
    result (upload_file env req w) = Normal r /\
    (status r = 200%N \/ status r = 500%N) /\
    (forall h, In h corsHeaders -> In h (headers r)) /\
    (status r = 500%N <-> exists error, response_body r = ErrorBody error) /\
    (UploadFile.method req = "OPTIONS" <-> response_body r = NoBody).
Proof.
  change (wp (upload_file env req) w (fun c w' evs =>
    exists r,
      c = Normal r /\
      (status r = 200%N \/ status r = 500%N) /\
      (forall h, In h corsHeaders -> In h (headers r)) /\
      (status r = 500%N <-> exists error, response_body r = ErrorBody error) /\
      (UploadFile.method req = "OPTIONS" <-> response_body r = NoBody))).
  unfold upload_file, handle, mirror.
  destruct (String.eqb_spec (method req) "OPTIONS") as [Hm | Hm].
  { apply wp_ret. eexists; split_and!; [done | by left | done | | done].
    split; [discriminate | intros [e Hbody]; discriminate Hbody]. }
  wp_run.
  all: eexists; split; [reflexivity|]; simpl; split_and!.
  all: first [ by left
             | by right
             | by (intros h; tauto)
             | by (split; [eauto | done])
             | by (split; [discriminate | intros [? [=]]])
             | by (split; [done | discriminate]) ].
Qed.

Lemma upload_writes_files_only env req w :
  projects (db (final (upload_file env req w))) = projects (db w) /\
  chats (db (final (upload_file env req w))) = chats (db w) /\
  messages (db (final (upload_file env req w))) = messages (db w) /\
  profiles (db (final (upload_file env req w))) = profiles (db w) /\
  (forall path object,
     bucket w !! path = Some object ->
     bucket (final (upload_file env req w)) !! path = Some object) /\
  (exists new,
     files (db (final (upload_file env req w))) = (files (db w) ++ new)%list /\
     length new <= 1).
Proof.
  change (wp (upload_file env req) w (fun c w' evs =>
    projects (db w') = projects (db w) /\
    chats (db w') = chats (db w) /\
    messages (db w') = messages (db w) /\
    profiles (db w') = profiles (db w) /\
    (forall path object, bucket w !! path = Some object -> bucket w' !! path = Some object) /\
    (exists new, files (db w') = (files (db w) ++ new)%list /\ length new <= 1))).
  unfold upload_file, handle, mirror. wp_run.
  all: split_and!; try reflexivity; try done.
  all: try (exists []; rewrite app_nil_r; split; [reflexivity | simpl; lia]).
  all: try (eexists [_]; split; [reflexivity | simpl; lia]).
  all: intros path object Hobj; simpl.
  all: match goal with
       | H : _ && bool_decide (bucket _ !! ?p = None) = true |- _ =>
           apply andb_true_iff in H as [_ H]; apply bool_decide_eq_true_1 in H;
           rewrite lookup_insert_ne; [exact Hobj | congruence]
       end.
Qed.

End UploadRelayMore.

(** X6. Every response of either relay has status 200 or 500 and
    carries the CORS headers; it has status 500 exactly when it is an
    error envelope, and no body exactly when the method is OPTIONS. *)
Theorem relay_response_shape :
  (forall env req w,
     exists r,
       result (ChatCompletion.chat_completion env req w) = Normal r /\
       (status r = 200%N \/ status r = 500%N) /\
       (forall h, In h corsHeaders -> In h (headers r)) /\
       (status r = 500%N <-> exists error, response_body r = ErrorBody error) /\
       (ChatCompletion.method req = "OPTIONS" <-> response_body r = NoBody)) /\
  (forall env req w,
     exists r,
       result (UploadFile.upload_file env req w) = Normal r /\
       (status r = 200%N \/ status r = 500%N) /\
       (forall h, In h corsHeaders -> In h (headers r)) /\
       (status r = 500%N <-> exists error, response_body r = ErrorBody error) /\
       (UploadFile.method req = "OPTIONS" <-> response_body r = NoBody)).
Proof.
  split.
  - exact completion_response_shape.
  - exact upload_response_shape.
Qed.

(** X7. Each relay writes only where it is meant to. The completion
    relay leaves projects, chats, files, profiles and the bucket as they
    were and only appends to [messages], one row per accepted insert.
    The upload relay leaves projects, chats, messages and profiles as
    they were, appends at most one row to [files], and never removes or
    replaces an object of the bucket. *)
Theorem relays_write_their_tables_only :
  (forall env req w,
     projects (db (final (ChatCompletion.chat_completion env req w))) = projects (db w) /\
     chats (db (final (ChatCompletion.chat_completion env req w))) = chats (db w) /\
     files (db (final (ChatCompletion.chat_completion env req w))) = files (db w) /\
     profiles (db (final (ChatCompletion.chat_completion env req w))) = profiles (db w) /\
     bucket (final (ChatCompletion.chat_completion env req w)) = bucket w /\
     exists new,
       messages (db (final (ChatCompletion.chat_completion env req w)))
         = (messages (db w) ++ new)%list /\
       length new
         = length (filter (fun a => a = true)
                     (message_inserts (calls (ChatCompletion.chat_completion env req w))))) /\
  (forall env req w,
     projects (db (final (UploadFile.upload_file env req w))) = projects (db w) /\
     chats (db (final (UploadFile.upload_file env req w))) = chats (db w) /\
     messages (db (final (UploadFile.upload_file env req w))) = messages (db w) /\
     profiles (db (final (UploadFile.upload_file env req w))) = profiles (db w) /\
     (forall path object,
        bucket w !! path = Some object ->
        bucket (final (UploadFile.upload_file env req w)) !! path = Some object) /\
     (exists new,
        files (db (final (UploadFile.upload_file env req w))) = (files (db w) ++ new)%list /\
        length new <= 1)).
Proof.
  split.
  - exact completion_writes_messages_only.
  - exact upload_writes_files_only.
Qed.

(** ** Row-level security and referential integrity *)

Section RowLevelSecurity.

Lemma uid_is_true (uid : option string) (owner : string) :
  uid_is uid owner = true <-> uid = Some owner.
Proof.
  destruct uid as [u|]; simpl; [|split; discriminate].
  rewrite String.eqb_eq. split; congruence.
Qed.

Lemma owns_project_true (uid : option string) (d : database) (pid : string) :
  owns_project uid d pid = true <->
  exists u p, uid = Some u /\ projects d !! pid = Some p /\ p_user_id p = u.
Proof.
  unfold owns_project. destruct (projects d !! pid) as [p|].
  - rewrite uid_is_true. split; [intros ->; eauto | intros (u & p' & -> & [= <-] & <-); done].
  - split; [discriminate | intros (u & p' & _ & [=] & _)].
Qed.

Lemma owns_chat_true (uid : option string) (d : database) (cid : string) :
  owns_chat uid d cid = true <->
  exists u c p, uid = Some u /\ chats d !! cid = Some c /\
                projects d !! c_project_id c = Some p /\ p_user_id p = u.
Proof.
  unfold owns_chat. destruct (chats d !! cid) as [c|].
  - rewrite owns_project_true.
    split; [intros (u & p & ? & ? & ?); eauto 10 | intros (u & c' & p & ? & [= <-] & ? & ?); eauto].
  - split; [discriminate | intros (u & c' & p & _ & [=] & _)].
Qed.

Lemma permitted_iff_owner (uid : option string) (d : database) (c : command) (r : row) :
  permitted uid d c r = true <->
  policies_for (table_of r) c <> [] /\ exists u, uid = Some u /\ owner_of d r = Some u.
Proof.
  destruct r as [p|p|ch|m|f], c; unfold permitted; simpl;
    rewrite ?orb_false_r;
    try (split; [discriminate | intros [Hno _]; by destruct Hno]);
    unfold own_profile_row, own_project_row, chat_of_own_project, message_of_own_chat,
      file_of_own_project;
    rewrite ?uid_is_true, ?owns_project_true, ?owns_chat_true.
  all: split;
    [ intros H; split; [discriminate|] | intros [_ (u & -> & H)] ].
  all: try (subst uid; eauto; fail).
  all: try (injection H as <-; reflexivity).
  all: try (destruct H as (u & p & -> & Hp & <-); exists (p_user_id p);
            rewrite Hp; done).
  all: try (destruct (projects d !! _) as [p|] eqn:Hp; simpl in H; [|discriminate];
            injection H as <-; eauto).
  all: try (destruct H as (u & ch' & p & -> & Hc & Hp & <-); exists (p_user_id p);
            rewrite Hc, Hp; done).
  all: destruct (chats d !! _) as [ch'|] eqn:Hc; [|discriminate];
    destruct (projects d !! _) as [p|] eqn:Hp; simpl in H; [|discriminate];
    injection H as <-; eauto 10.
Qed.

Lemma insert_message_iff (uid : option string) (r : message_row) (d d' : database) :
  Client.insert_message uid r d = Some d' <->
  d' = with_messages d (messages d ++ [r]) /\
  (m_role r = "user" \/ m_role r = "assistant") /\
  exists u c p,
    uid = Some u /\ chats d !! m_chat_id r = Some c /\
    projects d !! c_project_id c = Some p /\ p_user_id p = u.
Proof.
  unfold Client.insert_message.
  change (permitted uid d INSERT (MessageRow r))
    with (owns_chat uid d (m_chat_id r) || false).
  rewrite orb_false_r.
  destruct (owns_chat uid d (m_chat_id r)) eqn:Hown; simpl.
  - apply owns_chat_true in Hown as (u & c & p & -> & Hc & Hp & Hu).
    unfold message_constraints. rewrite Hc.
    rewrite bool_decide_eq_true_2 by eauto. simpl.
    destruct (role_check (m_role r)) eqn:Hrole.
    + apply role_check_true in Hrole. split; [intros [= <-]; eauto 10 | by intros [-> _]].
    + split; [discriminate|]. intros (_ & Hr & _). exfalso.
      unfold role_check in Hrole. apply orb_false_iff in Hrole as [H1 H2].
      apply String.eqb_neq in H1, H2. tauto.
  - split; [discriminate|]. intros (_ & _ & Hchain).
    apply owns_chat_true in Hchain. congruence.
Qed.

(** X12. Ownership is the only criterion of the policies. A command
    reaches a row exactly when the table has a policy for that command
    and the requester is the user the row belongs to, directly or
    through its chat and project; a request without an identity reaches
    nothing. *)
Theorem policies_admit_owner_only (uid : option string) (d : database) (c : command)
    (r : row) :
  (permitted uid d c r = true <->
     policies_for (table_of r) c <> [] /\ exists u, uid = Some u /\ owner_of d r = Some u) /\
  permitted None d c r = false.
Proof.
  split; [apply permitted_iff_owner|].
  destruct (permitted None d c r) eqn:Hp; [|reflexivity].
  apply permitted_iff_owner in Hp as [_ (u & [=] & _)].
Qed.

(** X13. Under row-level security a requester reads exactly the
    messages of chats of their own projects: a row is returned by a
    SELECT on [messages] if and only if it is in the table, matches the
    condition of the statement, and its chat belongs to a project whose
    owner is the requester. *)
Theorem messages_read_isolation (uid : option string) (where_ : message_row -> bool)
    (d : database) (m : message_row) :
  In m (Client.select_messages uid where_ d) <->
  In m (messages d) /\ where_ m = true /\
  exists u c p,
    uid = Some u /\ chats d !! m_chat_id m = Some c /\
    projects d !! c_project_id c = Some p /\ p_user_id p = u.
Proof.
  unfold Client.select_messages. rewrite filter_In, andb_true_iff.
  change (permitted uid d SELECT (MessageRow m))
    with (owns_chat uid d (m_chat_id m) || false).
  rewrite orb_false_r, owns_chat_true. tauto.
Qed.

(** X14. A client's insert into [messages] is accepted exactly when the
    role is [user] or [assistant] and the chat exists in a project whose
    owner is the requester; it then appends the row and changes nothing
    else. *)
Theorem message_insert_acceptance (uid : option string) (r : message_row)
    (d : database) :
  (forall d',
     Client.insert_message uid r d = Some d' <->
     d' = with_messages d (messages d ++ [r]) /\
     (m_role r = "user" \/ m_role r = "assistant") /\
     exists u c p,
       uid = Some u /\ chats d !! m_chat_id r = Some c /\
       projects d !! c_project_id c = Some p /\ p_user_id p = u).
Proof.
  intros d'. apply insert_message_iff.
Qed.

Lemma message_insert_acceptance_witness :
  Client.insert_message (Some "alice")
    {| m_chat_id := "c1"; m_role := "user"; m_content := "again" |}
    Examples.store_with_turns
  = Some (with_messages Examples.store_with_turns
            (messages Examples.store_with_turns
               ++ [{| m_chat_id := "c1"; m_role := "user"; m_content := "again" |}])).
Proof.
  apply (message_insert_acceptance (Some "alice")
           {| m_chat_id := "c1"; m_role := "user"; m_content := "again" |}
           Examples.store_with_turns).
  split_and!; [reflexivity | by left |].
  eexists "alice", _, _. split_and!; reflexivity.
Defined.

(** X15. Deleting a project under row-level security. For anyone but
    the owner nothing changes. For the owner the project goes, together
    with exactly its chats, the messages of those chats and its file
    rows; every other project, chat, message and file row stays. *)
Theorem deleteProject_effect (uid : option string) (pid : string) (d : database) :
  (owns_project uid d pid = false -> Client.deleteProject uid pid d = d) /\
  (owns_project uid d pid = true ->
     projects (Client.deleteProject uid pid d) = delete pid (projects d) /\
     (forall cid c,
        chats (Client.deleteProject uid pid d) !! cid = Some c <->
        chats d !! cid = Some c /\ c_project_id c <> pid) /\
     (forall m,
        In m (messages (Client.deleteProject uid pid d)) <->
        In m (messages d) /\
        ~ exists c, chats d !! m_chat_id m = Some c /\ c_project_id c = pid) /\
     (forall f,
        In f (files (Client.deleteProject uid pid d)) <->
        In f (files d) /\ f_project_id f <> pid) /\
     profiles (Client.deleteProject uid pid d) = profiles d).
Proof.
  unfold Client.deleteProject, owns_project.
  destruct (projects d !! pid) as [p|] eqn:Hp; [|split; [done | discriminate]].
  change (permitted uid d DELETE (ProjectRow p)) with (uid_is uid (p_user_id p) || false).
  rewrite orb_false_r. split; intros Hown; rewrite Hown; [reflexivity|]. simpl.
  split_and!; try reflexivity.
  - intros cid c. rewrite map_lookup_filter_Some. simpl. tauto.
  - intros m. rewrite filter_In, negb_true_iff. unfold Client.chat_in_project.
    split; intros [Hin Hc]; (split; [exact Hin|]).
    + intros (c & Hchat & Hpid). rewrite Hchat in Hc.
      apply String.eqb_neq in Hc. contradiction.
    + destruct (chats d !! m_chat_id m) as [c|] eqn:Hchat; [|reflexivity].
      apply String.eqb_neq. intros Hpid. apply Hc. eauto.
  - intros f. rewrite filter_In, negb_true_iff, String.eqb_neq. tauto.
Qed.

(** The theorem at the owner and at someone else. *)
Lemma deleteProject_effect_witness :
  Client.deleteProject (Some "bob") "p1" Examples.store_with_turns
    = Examples.store_with_turns /\
  projects (Client.deleteProject (Some "alice") "p1" Examples.store_with_turns) = ∅.
Proof.
  destruct (deleteProject_effect (Some "bob") "p1" Examples.store_with_turns) as [Hforeign _].
  destruct (deleteProject_effect (Some "alice") "p1" Examples.store_with_turns) as [_ Hown].
  split.
  - exact (Hforeign eq_refl).
  - destruct (Hown eq_refl) as (Hprojects & _). rewrite Hprojects. reflexivity.
Defined.

Lemma completion_keeps_references env req w :
  wp (ChatCompletion.chat_completion env req) w (fun _ w' _ =>
    projects (db w') = projects (db w) /\ chats (db w') = chats (db w) /\
    files (db w') = files (db w) /\
    exists new, messages (db w') = (messages (db w) ++ new)%list /\
                Forall (fun m => is_Some (chats (db w) !! m_chat_id m)) new).
Proof.
  unfold ChatCompletion.chat_completion, ChatCompletion.handle. wp_run.
  all: split_and!; try reflexivity.
  all: try (exists []; rewrite app_nil_r; split; [reflexivity | constructor]).
  all: match goal with
       | H : message_to_store _ _ _ _ _ = Some ?r |- _ =>
           apply message_to_store_Some in H; destruct H as (chat & text & _ & _ & -> & Hc)
       end.
  all: eexists [_]; split; [reflexivity|]; constructor; [|constructor].
  all: unfold message_constraints in Hc; apply andb_true_iff in Hc as [Hc _].
  all: exact (bool_decide_eq_true_1 _ Hc).
Qed.

Lemma upload_keeps_references env req w :
  wp (UploadFile.upload_file env req) w (fun _ w' _ =>
    projects (db w') = projects (db w) /\ chats (db w') = chats (db w) /\
    messages (db w') = messages (db w) /\
    exists new, files (db w') = (files (db w) ++ new)%list /\
                Forall (fun f => is_Some (projects (db w) !! f_project_id f)) new).
Proof.
  unfold UploadFile.upload_file, UploadFile.handle, UploadFile.mirror. wp_run.
  all: split_and!; try reflexivity.
  all: try (exists []; rewrite app_nil_r; split; [reflexivity | constructor]).
  all: eexists [_]; split; [reflexivity|]; constructor; [|constructor].
  all: match goal with
       | H : _ && file_constraints _ _ = true |- _ =>
           apply andb_true_iff in H as [_ H]; unfold file_constraints in H;
           apply andb_true_iff in H as [H _]; exact (bool_decide_eq_true_1 _ H)
       end.
Qed.

Lemma references_ok_same (d d' : database) :
  projects d' = projects d -> chats d' = chats d ->
  messages d' = messages d -> files d' = files d ->
  references_ok d -> references_ok d'.
Proof. unfold references_ok. intros -> -> -> ->. done. Qed.

(** X16. Referential integrity is kept by the changes the program
    makes to the store. If each chat refers to an existing project, each
    message to an existing chat and each file row to an existing project,
    the same holds after the creation of a project or of a chat, after
    the deletion of a project or of a chat with its cascade, after the
    deletion of file rows, after any insert, update or delete a client
    attempts on [messages], after the profile of a new user is made, and
    after any run of a relay. *)
Theorem references_kept (d d' : database) :
  change d d' -> references_ok d -> references_ok d'.
Proof.
  intros Hchange (Hchats & Hmessages & Hfiles).
  destruct Hchange as [d d' Ht | uid id r d d' Hins | uid id r d d' Hins
                      | uid where_ d | id NEW d d' Hnew].
  - destruct Ht as [uid r d d' H | uid c t d d' H | uid wh set d d' H | uid wh d
                   | uid pid d | uid cid d | env req w | env req w].
    + unfold Client.insert_message in H.
      destruct (permitted uid d INSERT (MessageRow r) && message_constraints d r) eqn:Hok;
        [|discriminate].
      injection H as <-. apply andb_true_iff in Hok as [_ Hc].
      unfold message_constraints in Hc. apply andb_true_iff in Hc as [Hc _].
      apply bool_decide_eq_true_1 in Hc.
      split_and!; simpl; [done | | done]. apply Forall_app. split; [done|]. by constructor.
    + unfold Client.sendMessage_insert, Client.insert_message in H.
      destruct (permitted uid d INSERT (MessageRow _) && message_constraints d _) eqn:Hok;
        [|discriminate].
      injection H as <-. apply andb_true_iff in Hok as [_ Hc].
      unfold message_constraints in Hc. apply andb_true_iff in Hc as [Hc _].
      apply bool_decide_eq_true_1 in Hc.
      split_and!; simpl; [done | | done]. apply Forall_app. split; [done|]. by constructor.
    + rewrite update_changes_nothing in H. injection H as <-. done.
    + rewrite delete_removes_nothing. done.
    + unfold Client.deleteProject.
      destruct (projects d !! pid) as [p|] eqn:Hp; [|done].
      destruct (permitted uid d DELETE (ProjectRow p)); [|done].
      split_and!; simpl.
      * intros cid c [Hc Hne]%map_lookup_filter_Some. simpl in Hne.
        rewrite lookup_delete_ne by congruence. eauto.
      * apply List.Forall_forall. intros m [Hin Hkeep]%filter_In.
        rewrite List.Forall_forall in Hmessages. destruct (Hmessages m Hin) as [c Hc].
        exists c. apply map_lookup_filter_Some. split; [exact Hc|]. simpl.
        apply negb_true_iff in Hkeep. unfold Client.chat_in_project in Hkeep.
        rewrite Hc in Hkeep. by apply String.eqb_neq in Hkeep.
      * apply List.Forall_forall. intros f [Hin Hkeep]%filter_In.
        rewrite List.Forall_forall in Hfiles. specialize (Hfiles f Hin).
        apply negb_true_iff, String.eqb_neq in Hkeep.
        rewrite lookup_delete_ne by congruence. exact Hfiles.
    + unfold Client.delete_chat.
      destruct (chats d !! cid) as [c|] eqn:Hc; [|done].
      destruct (permitted uid d DELETE (ChatRow c)); [|done].
      split_and!; simpl.
      * intros cid' c' Hc'. destruct (decide (cid = cid')) as [<- | Hne].
        -- rewrite lookup_delete_eq in Hc'. discriminate.
        -- rewrite lookup_delete_ne in Hc' by done. eauto.
      * apply List.Forall_forall. intros m [Hin Hkeep]%filter_In.
        rewrite List.Forall_forall in Hmessages. specialize (Hmessages m Hin).
        apply negb_true_iff, String.eqb_neq in Hkeep.
        rewrite lookup_delete_ne by congruence. exact Hmessages.
      * done.
    + destruct (completion_keeps_references env req w) as (Hp & Hc & Hf & new & Hm & Hnew).
      unfold references_ok. rewrite Hp, Hc, Hf, Hm. split_and!; [done | | done].
      apply Forall_app. by split.
    + destruct (upload_keeps_references env req w) as (Hp & Hc & Hm & new & Hf & Hnew).
      unfold references_ok. rewrite Hp, Hc, Hf, Hm. split_and!; [done | done |].
      apply Forall_app. by split.
  - unfold Dashboard.insert_project in Hins.
    destruct (permitted uid d INSERT (ProjectRow r) && bool_decide (projects d !! id = None))
      eqn:Hok; [|discriminate].
    injection Hins as <-. apply andb_true_iff in Hok as [_ Hfresh].
    apply bool_decide_eq_true_1 in Hfresh.
    assert (Hstill : forall pid, is_Some (projects d !! pid) ->
                                 is_Some (<[id := r]> (projects d) !! pid)).
    { intros pid [p Hp]. destruct (decide (id = pid)) as [-> | Hne].
      - rewrite lookup_insert_eq. eauto.
      - rewrite lookup_insert_ne by done. eauto. }
    split_and!; simpl.
    + intros cid c Hc. eauto.
    + done.
    + eapply Forall_impl; [exact Hfiles | simpl; eauto].
  - unfold Dashboard.insert_chat in Hins.
    destruct (permitted uid d INSERT (ChatRow r) && bool_decide (chats d !! id = None)
              && bool_decide (is_Some (projects d !! c_project_id r))) eqn:Hok;
      [|discriminate].
    injection Hins as <-. apply andb_true_iff in Hok as [Hok Hproject].
    apply andb_true_iff in Hok as [_ Hfresh].
    apply bool_decide_eq_true_1 in Hfresh, Hproject.
    split_and!; simpl.
    + intros cid c Hc. destruct (decide (id = cid)) as [-> | Hne].
      * rewrite lookup_insert_eq in Hc. injection Hc as <-. exact Hproject.
      * rewrite lookup_insert_ne in Hc by done. eauto.
    + eapply Forall_impl; [exact Hmessages|]. simpl. intros m [c Hc].
      destruct (decide (id = m_chat_id m)) as [-> | Hne].
      * rewrite lookup_insert_eq. eauto.
      * rewrite lookup_insert_ne by done. eauto.
    + done.
  - unfold FileUpload.delete_files. split_and!; simpl; [done | done |].
    apply List.Forall_forall. intros f [Hin _]%filter_In.
    rewrite List.Forall_forall in Hfiles. exact (Hfiles f Hin).
  - unfold Trigger.handle_new_user in Hnew.
    destruct (bool_decide (profiles d !! id = None)
              && negb (Trigger.has_profile d (Trigger.new_id NEW))); [|discriminate].
    injection Hnew as <-. split_and!; done.
Qed.

(** The theorem at the owner's project deletion, whose cascade leaves no
    dangling reference. *)
Lemma references_kept_witness :
  references_ok (Client.deleteProject (Some "alice") "p1" Examples.store_with_turns).
Proof.
  apply (references_kept Examples.store_with_turns).
  - apply change_transition, by_deleteProject.
  - split_and!.
    + intros cid c Hc. unfold Examples.store_with_turns, Examples.store in Hc. simpl in Hc.
      apply lookup_singleton_Some in Hc as [_ <-]. eexists. reflexivity.
    + repeat constructor; eexists; reflexivity.
    + constructor.
Defined.

End RowLevelSecurity.

(** ** The bucket policies, the sign-up trigger, projects and chats *)

Section Platform.










Lemma owns_project_insert (uid : option string) (d : database) (id : string)
    (r : project_row) (ps : gmap string project_row) pr ch ms fs :
  ps = <[id := r]> (projects d) ->
  owns_project uid {| profiles := pr; projects := ps; chats := ch; messages := ms;
                      files := fs |} id
  = uid_is uid (p_user_id r).
Proof. intros ->. unfold owns_project. simpl. by rewrite lookup_insert_eq. Qed.

(** X19. Creating projects and chats under row-level security. A
    signed-in user can create a project under any free key; the project
    is theirs and nobody else's. A chat can be created only in a project
    the requester owns, under a free key; it is titled [New Chat], and
    in it the owner's insert of a user turn is accepted. *)
Theorem created_rows_are_owned :
  (forall user id name description systemPrompt d,
     projects d !! id = None ->
     exists d',
       Dashboard.createProject user id name description systemPrompt d = Some d' /\
       projects d' !! id
         = Some {| p_user_id := user; p_name := name; p_description := Some description;
                   p_system_prompt := Some systemPrompt |} /\
       (forall uid, owns_project uid d' id = true <-> uid = Some user)) /\
  (forall uid project_id id d d',
     Dashboard.createNewChat uid (Some project_id) id d = Some d' ->
     owns_project uid d project_id = true /\
     chats d !! id = None /\
     chats d' = <[id := {| c_project_id := project_id; c_title := "New Chat" |}]> (chats d) /\
     projects d' = projects d /\ messages d' = messages d /\
     owns_chat uid d' id = true /\
     forall userMessage,
       Client.sendMessage_insert uid id userMessage d'
       = Some (with_messages d'
                 (messages d'
                    ++ [{| m_chat_id := id; m_role := "user"; m_content := userMessage |}]))).
Proof.
  split.
  - intros user id name description systemPrompt d Hfree.
    unfold Dashboard.createProject, Dashboard.insert_project.
    change (permitted (Some user) d INSERT (ProjectRow _))
      with (String.eqb user user || false).
    rewrite String.eqb_refl, bool_decide_eq_true_2 by exact Hfree. simpl.
    eexists. split_and!; [reflexivity | apply lookup_insert_eq |].
    intros uid. unfold owns_project. simpl. rewrite lookup_insert_eq. simpl.
    apply uid_is_true.
  - intros uid project_id id d d'. unfold Dashboard.createNewChat, Dashboard.insert_chat.
    change (permitted uid d INSERT (ChatRow _))
      with (owns_project uid d project_id || false).
    rewrite orb_false_r.
    destruct (owns_project uid d project_id) eqn:Hown; [|discriminate]. simpl.
    destruct (bool_decide (chats d !! id = None)) eqn:Hfree; [|discriminate].
    destruct (bool_decide (is_Some (projects d !! project_id))); [|discriminate].
    intros [= <-]. apply bool_decide_eq_true_1 in Hfree. simpl.
    assert (Hchat : owns_chat uid
              {| profiles := profiles d; projects := projects d;
                 chats := <[id := {| c_project_id := project_id; c_title := "New Chat" |}]>
                            (chats d);
                 messages := messages d; files := files d |} id = true).
    { unfold owns_chat. simpl. rewrite lookup_insert_eq. exact Hown. }
    split_and!; try done.
    intros userMessage.
    apply insert_message_iff. split_and!; [reflexivity | by left |].
    apply owns_chat_true. exact Hchat.
Qed.

Lemma created_rows_are_owned_witness :
  exists d',
    Dashboard.createNewChat (Some "alice") (Some "p1") "c2" (db (Examples.store None))
      = Some d' /\
    owns_chat (Some "alice") d' "c2" = true /\
    Dashboard.createNewChat (Some "bob") (Some "p1") "c3" d' = None.
Proof.
  destruct created_rows_are_owned as [_ Hchat].
  eexists. split; [reflexivity|]. split; [|reflexivity].
  exact (proj1 (proj2 (proj2 (proj2 (proj2 (proj2
           (Hchat (Some "alice") "p1" "c2" (db (Examples.store None)) _ eq_refl))))))).
Defined.

End Platform.

(** ** The chat interface *)

Section ChatInterfaceProperties.

Import Frontend ChatInterface.

Lemma wp_invoke (how : delivery) (relay : M response) w
    (Q : completion (option body) -> world -> list event -> Prop) :
  match how with
  | Delivered =>
      Q (Normal match result (relay w) with
                | Normal answer =>
                    if ((200 <=? status answer) && (status answer <=? 299))%N
                    then Some (response_body answer)
                    else None
                | Throw _ => None
                end)
        (final (relay w)) (calls (relay w))
  | NotReached => Q (Normal None) w []
  | AnswerLost => Q (Normal None) (final (relay w)) (calls (relay w))
  end ->
  wp (invoke how relay) w Q.
Proof. unfold wp, invoke. destruct how; intros H; exact H. Qed.

Lemma wp_save_turn (fe : frontend) (chat userMessage : string) w
    (Q : completion bool -> world -> list event -> Prop) :
  match (if store_reachable fe
         then Client.sendMessage_insert (user fe) chat userMessage (db w)
         else None) with
  | Some d' => Q (Normal true) (set_db d' w) []
  | None => Q (Normal false) w []
  end ->
  wp (save_turn fe chat userMessage) w Q.
Proof.
  unfold wp, save_turn.
  destruct (if store_reachable fe then _ else _); intros H; exact H.
Qed.

(** How a POST to the completion relay ends: with status 500, an error
    envelope and the table as it was, or with status 200, a reply and
    one more row. *)
Lemma completion_outcome env req w :
  wp (ChatCompletion.chat_completion env req) w (fun c w' evs =>
    ChatCompletion.method req <> "OPTIONS" ->
    exists r, c = Normal r /\
      ((status r = 500%N /\ (exists e, response_body r = ErrorBody e) /\
        Schema.messages (db w') = Schema.messages (db w)) \/
       (status r = 200%N /\
        exists chat message text usage,
          column_text env (supplied req "chatId") = Some chat /\
          response_body r = CompletionBody message usage /\
          column_text env message = Some text /\
          Schema.messages (db w')
            = (Schema.messages (db w)
                 ++ [{| m_chat_id := chat; m_role := "assistant"; m_content := text |}])%list))).
Proof.
  unfold ChatCompletion.chat_completion, ChatCompletion.handle.
  destruct (String.eqb_spec (ChatCompletion.method req) "OPTIONS") as [Hm | Hm].
  { apply wp_ret. intros Hno. contradiction. }
  wp_run.
  all: try (exfalso;
            match goal with
            | H : get (Some ?j) "usage" = Throw _, H' : get (Some ?j) "choices" = Normal _
              |- _ => apply get_throws_null in H; subst j; discriminate H'
            end).
  all: intros _; eexists; split; [reflexivity|].
  all: try (left; split_and!; [reflexivity | eauto | reflexivity]).
  all: right; split; [reflexivity|].
  all: match goal with
       | H : message_to_store _ _ _ _ _ = Some _ |- _ =>
           apply message_to_store_Some in H;
           destruct H as (chat & text & Hchat & Htext & -> & _)
       end.
  all: eexists chat, _, text, _; split_and!; try reflexivity; try exact Htext.
  all: match goal with
       | Hb : ChatCompletion.json_body ?r = Some ?j, Hg : get (Some ?j) "chatId" = Normal ?a
         |- _ => rewrite <- (get_supplied r j _ _ Hb Hg); exact Hchat
       end.
Qed.

Lemma select_messages_app uid where_ (d d' : database) (new : list message_row) :
  projects d' = projects d -> chats d' = chats d ->
  Schema.messages d' = (Schema.messages d ++ new)%list ->
  Client.select_messages uid where_ d'
  = (Client.select_messages uid where_ d
       ++ List.filter (fun r => where_ r && owns_chat uid d (m_chat_id r)) new)%list.
Proof.
  intros Hp Hc Hm. unfold Client.select_messages. rewrite Hm, List.filter_app.
  assert (Hsame : forall r, permitted uid d' SELECT (MessageRow r)
                            = owns_chat uid d (m_chat_id r)).
  { intros r.
    change (permitted uid d' SELECT (MessageRow r))
      with (owns_chat uid d' (m_chat_id r) || false).
    rewrite orb_false_r. unfold owns_chat, owns_project. by rewrite Hp, Hc. }
  f_equal.
  - apply List.filter_ext. intros r.
    change (permitted uid d SELECT (MessageRow r))
      with (owns_chat uid d (m_chat_id r) || false).
    by rewrite Hsame, orb_false_r.
  - apply List.filter_ext. intros r. by rewrite Hsame.
Qed.

(** X20. A send that ends without a toast has stored two rows in the
    selected chat, the user's turn (the trimmed input) and then the
    assistant's reply as the column takes it (a string as it is, another
    value as its text); it has appended the user's turn and the reply as
    it was returned to the messages on screen, and has cleared the
    input. When the reply is a string and the screen showed what the
    store held for the chat before, it shows what the store holds
    after. *)
Theorem sendMessage_round_trip trim fe p st w st' chat :
  selectedChat p = Some chat ->
  is_Some (user fe) ->
  trim (inputMessage st) <> "" ->
  result (sendMessage trim fe p st w) = Normal (st', []) ->
  exists reply text,
    column_text (backend fe) reply = Some text /\
    (forall s, reply = Some (JStr s) -> text = s) /\
    messages st'
      = (messages st
           ++ [ {| role := "user"; content := Some (JStr (trim (inputMessage st))) |};
                {| role := "assistant"; content := reply |} ])%list /\
    Schema.messages (db (final (sendMessage trim fe p st w)))
      = (Schema.messages (db w)
           ++ [ {| m_chat_id := chat; m_role := "user";
                   m_content := trim (inputMessage st) |};
                {| m_chat_id := chat; m_role := "assistant"; m_content := text |} ])%list /\
    inputMessage st' = "" /\ loading st' = false /\
    (messages st = loaded (user fe) chat (db w) ->
     (exists s, reply = Some (JStr s)) ->
     messages st' = loaded (user fe) chat (db (final (sendMessage trim fe p st w)))).
Proof.
  intros Hchat [u Hu] Hinput.
  revert st'.
  change (wp (sendMessage trim fe p st) w (fun c w' evs =>
    forall st',
      c = Normal (st', []) ->
      exists reply text,
        column_text (backend fe) reply = Some text /\
        (forall s, reply = Some (JStr s) -> text = s) /\
        messages st'
          = (messages st
               ++ [ {| role := "user"; content := Some (JStr (trim (inputMessage st))) |};
                    {| role := "assistant"; content := reply |} ])%list /\
        Schema.messages (db w')
          = (Schema.messages (db w)
               ++ [ {| m_chat_id := chat; m_role := "user";
                       m_content := trim (inputMessage st) |};
                    {| m_chat_id := chat; m_role := "assistant"; m_content := text |} ])%list /\
        inputMessage st' = "" /\ loading st' = false /\
        (messages st = loaded (user fe) chat (db w) ->
         (exists s, reply = Some (JStr s)) ->
         messages st' = loaded (user fe) chat (db w')))).
  unfold sendMessage. rewrite Hchat, Hu.
  apply String.eqb_neq in Hinput. rewrite Hinput. apply String.eqb_neq in Hinput.
  apply wp_bind, wp_save_turn.
  destruct (if store_reachable fe then _ else _) as [d1|] eqn:Hsave; cbn [negb].
  2: { apply wp_ret. intros st' [=]. }
  assert (Hins : Client.sendMessage_insert (Some u) chat (trim (inputMessage st)) (db w)
                 = Some d1)
    by (rewrite <- Hu; destruct (store_reachable fe); [exact Hsave | discriminate]).
  clear Hsave. apply insert_message_iff in Hins as (-> & _ & Hown).
  apply owns_chat_true in Hown. simpl in Hown.
  apply wp_bind, wp_invoke.
  destruct (functions fe 0); [|apply wp_ret; intros st' [=]..].
  set (req := completion_request fe p chat _).
  set (w1 := set_db _ w).
  destruct (completion_outcome (backend fe) req w1) as (r & Hres & Hcases); [discriminate|].
  destruct (completion_writes_messages_only (backend fe) req w1) as (Hp & Hc & _).
  rewrite Hres.
  destruct Hcases as [(Hstatus & _ & _)
                     | (Hstatus & chat' & reply & text & usage & Hsup & Hbody & Htext & Hrows)].
  { rewrite Hstatus. apply wp_ret. intros st' [=]. }
  rewrite Hstatus, Hbody. cbn [N.leb andb]. apply wp_ret.
  intros st' [= <-]. injection Hsup as <-.
  exists reply, text. simpl. split_and!; try reflexivity.
  - exact Htext.
  - intros s Hs. exact (column_text_string _ _ _ _ Htext Hs).
  - by rewrite <- app_assoc.
  - rewrite Hrows. subst w1. simpl. by rewrite <- app_assoc.
  - intros Hsync [s Hs]. rewrite Hsync. unfold loaded.
    pose proof (column_text_string _ _ _ _ Htext Hs) as ->. subst reply.
    rewrite (select_messages_app (Some u) _ (db w)
               (db (final (ChatCompletion.chat_completion (backend fe) req w1)))
               [ {| m_chat_id := chat; m_role := "user";
                    m_content := trim (inputMessage st) |};
                 {| m_chat_id := chat; m_role := "assistant"; m_content := s |} ]).
    + simpl. rewrite String.eqb_refl, Hown. simpl.
      rewrite fmap_app, <- app_assoc. reflexivity.
    + rewrite Hp. reflexivity.
    + rewrite Hc. reflexivity.
    + rewrite Hrows. subst w1. simpl. by rewrite <- app_assoc.
Qed.

Lemma sendMessage_round_trip_witness :
  Schema.messages
    (db (final (sendMessage MoreExamples.no_trim (MoreExamples.alice Examples.healthy)
                  MoreExamples.chat_open (MoreExamples.typed "hi") (Examples.store None))))
  = [ {| m_chat_id := "c1"; m_role := "user"; m_content := "hi" |};
      {| m_chat_id := "c1"; m_role := "assistant"; m_content := "hello" |} ].
Proof.
  destruct (sendMessage_round_trip MoreExamples.no_trim (MoreExamples.alice Examples.healthy)
              MoreExamples.chat_open (MoreExamples.typed "hi") (Examples.store None)
              {| messages := [ {| role := "user"; content := Some (JStr "hi") |};
                               {| role := "assistant"; content := Some (JStr "hello") |} ];
                 inputMessage := ""; loading := false; loadingMessages := false |}
              "c1" eq_refl (ex_intro _ "alice" eq_refl))
    as (reply & text & _ & Hstring & Hscreen & Hrows & _).
  - discriminate.
  - reflexivity.
  - simpl in Hscreen. injection Hscreen as <-.
    rewrite (Hstring "hello" eq_refl) in Hrows. exact Hrows.
Defined.

(** X21. A send that cannot start sends nothing. With a blank input, no
    selected chat or no user, nothing happens at all. When the store
    refuses the user's turn (the chat is not the requester's, or the
    store cannot be reached), the relay is not invoked, no row is
    stored, the messages on screen are as before and one error toast is
    shown, with the text [Failed to send message]; the typed text is
    cleared all the same. *)
Theorem sendMessage_without_saved_turn trim fe p st w :
  (trim (inputMessage st) = "" \/ selectedChat p = None \/ user fe = None ->
   result (sendMessage trim fe p st w) = Normal (st, []) /\
   final (sendMessage trim fe p st w) = w /\
   calls (sendMessage trim fe p st w) = []) /\
  (forall chat u,
     trim (inputMessage st) <> "" -> selectedChat p = Some chat -> user fe = Some u ->
     store_reachable fe = false \/ owns_chat (Some u) (db w) chat = false ->
     exists st',
       result (sendMessage trim fe p st w)
         = Normal (st', [{| title := "Error";
                            description := Some "Failed to send message";
                            variant := Some "destructive" |}]) /\
       messages st' = messages st /\ inputMessage st' = "" /\ loading st' = false /\
       final (sendMessage trim fe p st w) = w /\
       calls (sendMessage trim fe p st w) = []).
Proof.
  split.
  - intros Hguard. unfold sendMessage.
    destruct (selectedChat p) as [chat|]; [|done].
    destruct (user fe) as [u|]; [|done].
    destruct Hguard as [Hblank | [[=] | [=]]]. rewrite Hblank. done.
  - intros chat u Hinput Hchat Hu Hrefused.
    change (wp (sendMessage trim fe p st) w (fun c w' evs =>
      exists st',
        c = Normal (st', [{| title := "Error";
                             description := Some "Failed to send message";
                             variant := Some "destructive" |}]) /\
        messages st' = messages st /\ inputMessage st' = "" /\ loading st' = false /\
        w' = w /\ evs = [])).
    unfold sendMessage. rewrite Hchat, Hu.
    apply String.eqb_neq in Hinput. rewrite Hinput.
    apply wp_bind, wp_save_turn.
    assert (Hnone : (if store_reachable fe
                     then Client.sendMessage_insert (user fe) chat (trim (inputMessage st))
                            (db w)
                     else None) = None).
    { destruct Hrefused as [-> | Hforeign]; [reflexivity|].
      destruct (store_reachable fe); [|reflexivity].
      rewrite Hu.
      destruct (Client.sendMessage_insert (Some u) chat (trim (inputMessage st)) (db w))
        as [d1|] eqn:Hins; [|reflexivity].
      apply insert_message_iff in Hins as (_ & _ & Hown).
      apply owns_chat_true in Hown. simpl in Hown. congruence. }
    rewrite Hnone. cbn [negb]. apply wp_ret. eexists. split_and!; reflexivity.
Qed.

(** The theorem for Bob typing into Alice's chat. *)
Lemma sendMessage_without_saved_turn_witness :
  final (sendMessage MoreExamples.no_trim (MoreExamples.bob Examples.healthy)
           MoreExamples.chat_open (MoreExamples.typed "hi") (Examples.store None))
    = Examples.store None /\
  calls (sendMessage MoreExamples.no_trim (MoreExamples.bob Examples.healthy)
           MoreExamples.chat_open (MoreExamples.typed "hi") (Examples.store None)) = [].
Proof.
  destruct (proj2 (sendMessage_without_saved_turn MoreExamples.no_trim
                     (MoreExamples.bob Examples.healthy) MoreExamples.chat_open
                     (MoreExamples.typed "hi") (Examples.store None))
              "c1" "bob")
    as (st' & _ & _ & _ & _ & Hfin & Hcalls).
  - discriminate.
  - reflexivity.
  - reflexivity.
  - right; reflexivity.
  - split; [exact Hfin | exact Hcalls].
Defined.






End ChatInterfaceProperties.

(** ** The upload component *)

Section FileUploadProperties.

Import Frontend FileUpload.

Lemma only_files_added_refl projectId n w : only_files_added projectId n w w.
Proof.
  unfold only_files_added. split_and!; try done.
  exists []. rewrite app_nil_r. split_and!; [reflexivity | simpl; lia | constructor].
Qed.

Lemma only_files_added_trans projectId n m w1 w2 w3 :
  only_files_added projectId n w1 w2 -> only_files_added projectId m w2 w3 ->
  only_files_added projectId (n + m) w1 w3.
Proof.
  intros (Hp1 & Hc1 & Hm1 & Hf1 & Hb1 & new1 & Hn1 & Hl1 & Ha1)
         (Hp2 & Hc2 & Hm2 & Hf2 & Hb2 & new2 & Hn2 & Hl2 & Ha2).
  unfold only_files_added. split_and!; try congruence.
  - intros path object Hobj. by apply Hb2, Hb1.
  - exists (new1 ++ new2)%list. split_and!.
    + by rewrite Hn2, Hn1, app_assoc.
    + rewrite length_app. lia.
    + by apply Forall_app.
Qed.

Lemma stored_kept fe env projectId userId file n w w' :
  only_files_added projectId n w w' ->
  stored fe env projectId userId file w -> stored fe env projectId userId file w'.
Proof.
  intros (_ & _ & _ & _ & Hb & new & Hn & _) (r & Hin & Hrest).
  exists r. rewrite Hn. split; [apply in_app_iff; by left|].
  destruct Hrest as (? & ? & ? & ? & ? & Hobj). split_and!; try done. by apply Hb.
Qed.

Lemma upload_outcome env fe projectId userId file w :
  wp (UploadFile.upload_file env (upload_request fe projectId userId file)) w
    (fun c w' evs =>
       exists r, c = Normal r /\
         (status r = 200%N \/ status r = 500%N) /\
         (status r = 200%N -> stored fe env projectId userId file w') /\
         Forall (drop_call fe projectId userId file) evs /\
         only_files_added projectId 1 w w').
Proof.
  unfold UploadFile.upload_file, UploadFile.handle, UploadFile.mirror, upload_request.
  wp_run.
  all: simplify_eq/=.
  all: eexists; split; [reflexivity|].
  all: split; [simpl; tauto|].
  all: split_and!.
  all: try (intros [=]; fail).
  all: try (repeat constructor; simpl; unfold UploadFile.filePath;
            try apply prefix_append_more; done).
  all: try apply only_files_added_refl.
  all: try (intros _; eexists; split; [apply in_app_iff; right; left; reflexivity|];
            simpl; unfold UploadFile.filePath;
            split_and!; try done; [apply prefix_append_more | apply lookup_insert_eq]).
  all: unfold only_files_added; simpl; split_and!; try done.
  all: try (exists []; rewrite app_nil_r; split_and!; [reflexivity | simpl; lia | constructor]).
  all: try (eexists [_]; split_and!; [reflexivity | simpl; lia | by repeat constructor]).
  all: intros path object Hobj.
  all: match goal with
       | H : _ && bool_decide (bucket _ !! ?p = None) = true |- _ =>
           apply andb_true_iff in H as [_ H]; apply bool_decide_eq_true_1 in H;
           rewrite lookup_insert_ne; [exact Hobj | congruence]
       end.
Qed.

Lemma upload_one_round fe env how projectId userId file w :
  wp (upload_one fe env how projectId userId file) w (fun c w' evs =>
    exists t, c = Normal t /\
      (title t = "File too large" <-> (maxSize < file_size file)%Z) /\
      (title t = "File too large" \/ title t = "Upload failed" \/ title t = "File uploaded") /\
      (title t = "File uploaded" -> stored fe env projectId userId file w') /\
      Forall (fun e => (file_size file <= maxSize)%Z /\
                       drop_call fe projectId userId file e) evs /\
      only_files_added projectId 1 w w').
Proof.
  unfold upload_one. destruct (Z.ltb_spec maxSize (file_size file)) as [Hbig | Hfits].
  { apply wp_ret. eexists; split; [reflexivity|]. simpl.
    split_and!; [tauto | tauto | discriminate | constructor | apply only_files_added_refl]. }
  apply wp_bind, wp_invoke.
  pose proof (upload_outcome env fe projectId userId file w) as Hrun. unfold wp in Hrun.
  destruct Hrun as (r & Hres & Hstatus & Hstored & Hcalls & Hadded).
  assert (Hscoped : Forall (fun e => (file_size file <= maxSize)%Z /\
                                     drop_call fe projectId userId file e)
                      (calls (UploadFile.upload_file env
                                (upload_request fe projectId userId file) w) ++ [])).
  { rewrite app_nil_r. eapply Forall_impl; [exact Hcalls|]. intros e He. split; [lia | exact He]. }
  destruct how.
  - rewrite Hres.
    destruct Hstatus as [H200 | H500]; rewrite ?H200, ?H500; cbn [N.leb andb];
      apply wp_ret; eexists; (split; [reflexivity|]); simpl.
    + split_and!; [split; [discriminate | lia] | tauto | intros _; by apply Hstored
                  | exact Hscoped | exact Hadded].
    + split_and!; [split; [discriminate | lia] | tauto | discriminate
                  | exact Hscoped | exact Hadded].
  - apply wp_ret. eexists; split; [reflexivity|]. simpl.
    split_and!; [split; [discriminate | lia] | tauto | discriminate | constructor
                | apply only_files_added_refl].
  - apply wp_ret. eexists; split; [reflexivity|]. simpl.
    split_and!; [split; [discriminate | lia] | tauto | discriminate
                | exact Hscoped | exact Hadded].
Qed.

Lemma drop_rounds fe backend_at projectId userId acceptedFiles i0 w :
  wp (for_of (fun i => upload_one fe (backend_at i) (functions fe i) projectId userId)
        i0 acceptedFiles) w
    (fun c w' evs =>
       exists toasts, c = Normal toasts /\
         length toasts = length acceptedFiles /\
         (forall k file t,
            acceptedFiles !! k = Some file -> toasts !! k = Some t ->
            (title t = "File too large" <-> (maxSize < file_size file)%Z) /\
            (title t = "File too large" \/ title t = "Upload failed" \/
             title t = "File uploaded") /\
            (title t = "File uploaded" ->
             stored fe (backend_at (i0 + k)) projectId userId file w')) /\
         Forall (fun e => exists file,
                    In file acceptedFiles /\ (file_size file <= maxSize)%Z /\
                    drop_call fe projectId userId file e) evs /\
         only_files_added projectId (length acceptedFiles) w w').
Proof.
  revert i0 w. induction acceptedFiles as [|file rest IH]; intros i0 w; simpl for_of.
  { apply wp_ret. exists []. split_and!; [reflexivity | reflexivity | | constructor
                                         | apply only_files_added_refl].
    intros k file t Hk. rewrite lookup_nil in Hk. discriminate. }
  apply wp_bind.
  pose proof (upload_one_round fe (backend_at i0) (functions fe i0) projectId userId file w)
    as Hone.
  unfold wp in Hone |- *.
  destruct Hone as (t & -> & Hbig & Htitle & Hstored & Hcalls & Hadded).
  apply wp_bind.
  set (w1 := final (upload_one fe (backend_at i0) (functions fe i0) projectId userId
                      file w)) in *.
  pose proof (IH (S i0) w1) as Hrest. unfold wp in Hrest |- *.
  destruct Hrest as (toasts & -> & Hlen & Hall & Hcalls' & Hadded').
  apply wp_ret. exists (t :: toasts). split_and!.
  - reflexivity.
  - simpl. by rewrite Hlen.
  - intros [|k] file' t' Hfile Ht; simpl in Hfile, Ht.
    + injection Hfile as <-. injection Ht as <-. rewrite Nat.add_0_r.
      split_and!; [exact Hbig | exact Htitle |].
      intros Hok. eapply stored_kept; [exact Hadded' | by apply Hstored].
    + rewrite Nat.add_succ_r. exact (Hall k file' t' Hfile Ht).
  - rewrite app_nil_r. apply Forall_app. split.
    + eapply Forall_impl; [exact Hcalls|]. intros e [Hfit He]. exists file.
      split_and!; [by left | exact Hfit | exact He].
    + eapply Forall_impl; [exact Hcalls'|]. intros e (f & Hin & Hfit & He). exists f.
      split_and!; [by right | exact Hfit | exact He].
  - exact (only_files_added_trans _ _ _ _ _ _ Hadded Hadded').
Qed.

(** X24. A drop shows one toast per accepted file, in order. The toast
    is "File too large" exactly for a file of more than 20 MiB; it is
    "File uploaded" only if, when the drop is over, a row for that file
    is in [files] for the project of the component, with the size of the
    file and the name and type the relay received (the type is
    [application/octet-stream] for a file without one), its path begins
    with the identifier of the user, and the file as the relay received
    it is in the bucket under the key of that path. Without a user
    nothing is shown, called or stored. *)
Theorem onDrop_one_toast_per_file fe backend_at projectId acceptedFiles w :
  (user fe = None ->
   result (onDrop fe backend_at projectId acceptedFiles w) = Normal [] /\
   final (onDrop fe backend_at projectId acceptedFiles w) = w /\
   calls (onDrop fe backend_at projectId acceptedFiles w) = []) /\
  (forall userId,
     user fe = Some userId ->
     exists toasts,
       result (onDrop fe backend_at projectId acceptedFiles w) = Normal toasts /\
       length toasts = length acceptedFiles /\
       forall i file t,
         acceptedFiles !! i = Some file -> toasts !! i = Some t ->
         (title t = "File too large" <-> (maxSize < file_size file)%Z) /\
         (title t = "File too large" \/ title t = "Upload failed" \/
          title t = "File uploaded") /\
         (title t = "File uploaded" ->
          stored fe (backend_at i) projectId userId file
            (final (onDrop fe backend_at projectId acceptedFiles w)))).
Proof.
  unfold onDrop. split.
  - intros ->. done.
  - intros userId ->.
    destruct (drop_rounds fe backend_at projectId userId acceptedFiles 0 w)
      as (toasts & Hres & Hlen & Hall & _).
    exists toasts. split_and!; [exact Hres | exact Hlen | exact Hall].
Qed.

(** The theorem for Alice dropping the text file of 5 KB: one toast,
    "File uploaded". *)
Lemma onDrop_one_toast_per_file_witness :
  exists t,
    result (onDrop (MoreExamples.alice Examples.healthy) (MoreExamples.always Examples.healthy)
              "p1" [Examples.notes] (Examples.store None)) = Normal [t] /\
    title t = "File uploaded" /\
    stored (MoreExamples.alice Examples.healthy) Examples.healthy "p1" "alice" Examples.notes
      (final (onDrop (MoreExamples.alice Examples.healthy)
                (MoreExamples.always Examples.healthy)
                "p1" [Examples.notes] (Examples.store None))).
Proof.
  destruct (proj2 (onDrop_one_toast_per_file (MoreExamples.alice Examples.healthy)
                     (MoreExamples.always Examples.healthy) "p1" [Examples.notes]
                     (Examples.store None)) "alice" eq_refl)
    as (toasts & Hres & _ & Hall).
  assert (Hrun : result (onDrop (MoreExamples.alice Examples.healthy)
                           (MoreExamples.always Examples.healthy)
                           "p1" [Examples.notes] (Examples.store None))
                 = Normal [ {| title := "File uploaded";
                               description := Some "notes.txt uploaded successfully";
                               variant := None |} ])
    by (vm_compute; reflexivity).
  rewrite Hrun in Hres. injection Hres as <-.
  destruct (Hall 0 Examples.notes _ eq_refl eq_refl) as (_ & _ & Hstored).
  eexists. split_and!; [exact Hrun | reflexivity | by apply Hstored].
Defined.

(** X25. Every call made during a drop is a call of the upload relay
    for one of the accepted files of at most 20 MiB, as the relay
    received it: the object is uploaded with a path that begins with the
    identifier of the user and a slash, the row carries the project of
    the component, the size of the file and the name and type received,
    and the received file is what goes to the mirror. No project is
    read, no completion requested and no message stored. *)
Theorem onDrop_calls fe backend_at projectId acceptedFiles w e :
  In e (calls (onDrop fe backend_at projectId acceptedFiles w)) ->
  exists userId file,
    user fe = Some userId /\ In file acceptedFiles /\
    (file_size file <= maxSize)%Z /\
    drop_call fe projectId userId file e.
Proof.
  unfold onDrop. destruct (user fe) as [userId|]; [|intros []].
  destruct (drop_rounds fe backend_at projectId userId acceptedFiles 0 w)
    as (toasts & _ & _ & _ & Hcalls & _).
  intros Hin. rewrite List.Forall_forall in Hcalls.
  destruct (Hcalls e Hin) as (file & Hfile & Hfit & He).
  exists userId, file. split_and!; done.
Qed.

Lemma onDrop_calls_witness :
  In (CallFilesInsert Examples.notes_row true)
     (calls (onDrop (MoreExamples.alice Examples.healthy) (MoreExamples.always Examples.healthy)
               "p1" [Examples.notes] (Examples.store None))) /\
  exists file,
    drop_call (MoreExamples.alice Examples.healthy) "p1" "alice" file
      (CallFilesInsert Examples.notes_row true).
Proof.
  assert (Hin : In (CallFilesInsert Examples.notes_row true)
                   (calls (onDrop (MoreExamples.alice Examples.healthy)
                             (MoreExamples.always Examples.healthy)
                             "p1" [Examples.notes] (Examples.store None))))
    by (vm_compute; right; left; reflexivity).
  split; [exact Hin|].
  destruct (onDrop_calls _ _ _ _ _ _ Hin) as (userId & file & [= <-] & _ & _ & He).
  exists file. exact He.
Defined.

(** X26. A drop changes the store only by appending rows to [files]:
    at most one per accepted file, each for the project of the
    component. Projects, chats, messages and profiles are as before, and
    every object that was in the bucket is still there. *)
Theorem onDrop_store_effect fe backend_at projectId acceptedFiles w :
  projects (db (final (onDrop fe backend_at projectId acceptedFiles w))) = projects (db w) /\
  chats (db (final (onDrop fe backend_at projectId acceptedFiles w))) = chats (db w) /\
  messages (db (final (onDrop fe backend_at projectId acceptedFiles w))) = messages (db w) /\
  profiles (db (final (onDrop fe backend_at projectId acceptedFiles w))) = profiles (db w) /\
  (forall path object,
     bucket w !! path = Some object ->
     bucket (final (onDrop fe backend_at projectId acceptedFiles w)) !! path = Some object) /\
  exists new,
    files (db (final (onDrop fe backend_at projectId acceptedFiles w)))
      = (files (db w) ++ new)%list /\
    length new <= length acceptedFiles /\
    Forall (fun r => f_project_id r = projectId) new.
Proof.
  unfold onDrop. destruct (user fe) as [userId|].
  - destruct (drop_rounds fe backend_at projectId userId acceptedFiles 0 w)
      as (toasts & _ & _ & _ & _ & Hadded).
    exact Hadded.
  - exact (only_files_added_refl projectId (length acceptedFiles) w).
Qed.

End FileUploadProperties.

(** ** The model at some inputs *)

Section WorkedExamples.

(** A [projectId] that is a list of one identifier selects that
    project: the filter is built with a template literal. *)
Lemma listed_project_is_selected :
  map chat_messages
    (sent_upstream (calls (ChatCompletion.chat_completion Examples.healthy
                             MoreExamples.say_hi_listing_project
                             (Examples.store (Some "You are terse.")))))
  = [[JObj [("role", JStr "system"); ("content", JStr "You are terse.")]; Examples.hi]].
Proof. vm_compute. reflexivity. Qed.

(** A reply that is a number is returned as the number and stored as
    its text. *)
Lemma numeric_reply_is_stored_as_text :
  result (ChatCompletion.chat_completion MoreExamples.says_42 Examples.say_hi
            (Examples.store None))
    = Normal {| status := 200; headers := json_headers;
                response_body :=
                  CompletionBody (Some (JNum 42))
                    (Some (JObj [("total_tokens", JNum 12)])) |} /\
  messages (db (final (ChatCompletion.chat_completion MoreExamples.says_42 Examples.say_hi
                         (Examples.store None))))
    = [{| m_chat_id := "c1"; m_role := "assistant"; m_content := "42" |}].
Proof. split; vm_compute; reflexivity. Qed.

(** For a [userId] with a slash in front the path of the row keeps the
    slash and the object is filed without it. *)
Lemma leading_slash_is_cleaned :
  f_storage_path
    <$> files (db (final (UploadFile.upload_file Examples.healthy
                            (Examples.upload_notes "/alice") (Examples.store None))))
    = ["/alice/3f0c2a1e-7b4d-4c8e-9a51-0d6e2b9f4c77.txt"] /\
  bucket (final (UploadFile.upload_file Examples.healthy (Examples.upload_notes "/alice")
                   (Examples.store None)))
    !! "alice/3f0c2a1e-7b4d-4c8e-9a51-0d6e2b9f4c77.txt" = Some Examples.notes /\
  bucket (final (UploadFile.upload_file Examples.healthy (Examples.upload_notes "/alice")
                   (Examples.store None)))
    !! "/alice/3f0c2a1e-7b4d-4c8e-9a51-0d6e2b9f4c77.txt" = None.
Proof. split_and!; vm_compute; reflexivity. Qed.

(** A dropped file without a type is stored with the type the relay
    received. *)
Lemma untyped_file_is_stored_as_octet_stream :
  f_type
    <$> files (db (final (FileUpload.onDrop (MoreExamples.alice Examples.healthy)
                            (MoreExamples.always Examples.healthy) "p1"
                            [MoreExamples.untyped] (Examples.store None))))
    = ["application/octet-stream"].
Proof. vm_compute. reflexivity. Qed.

(** A string is spread by character, not by byte. *)
Lemma spread_by_character :
  spread (Some (JStr (String "h" (String "195" (String "169" "")))))
    = Normal [JStr "h"; JStr (String "195" (String "169" ""))].
Proof. reflexivity. Qed.

End WorkedExamples.
